(** * The application loop of Floor Sketcher ([src/app.pyw])

    A shallow embedding of class [App] and class [BackgroundUpdater]:
    the constructor, the load and recovery path, the per-frame command
    queue, frame pacing, the main loop, the shutdown sequence, and the
    background thread, first as it runs when nothing holds it up and
    then interleaved with the main thread under any schedule.  Two
    small applications run the model: a sketcher whose commands leave
    the queue, the flag and the model's identity as the spec expects,
    and a scripted one whose commands do not.

    The collaborators [Model], [View], [Controller], [Loader] and the
    concrete commands live in other modules of the program.  They enter
    the development as three interfaces: the types they work on, their
    operations as [app.pyw] calls them, and [execute] of the commands.
    Python objects carry an identity; a [Model] is therefore a pair of an
    object number and its contents, mutated in place by keeping the
    number and changing the contents. *)

From Stdlib Require Import List String Bool Arith Lia ZArith.
From Stdlib Require Import Floats.
Import ListNotations.

Set Warnings "-inexact-float".

(** ** How a call ends *)

(** A Python call returns a value, lets an exception propagate, or has
    not come back: it wants input that the finite input given to the
    model does not hold, it is blocked for good, or it is in a loop that
    the model has followed as far as its patience goes.  In every case
    the effects performed so far stay in the state. *)
Inductive Outcome (S A : Type) : Type :=
| Returns (v : A) (s : S)
| Raises (s : S)
| Pending (s : S).

Arguments Returns {S A} v s.
Arguments Raises {S A} s.
Arguments Pending {S A} s.

Definition state_of {S A : Type} (o : Outcome S A) : S :=
  match o with
  | Returns _ s => s
  | Raises s => s
  | Pending s => s
  end.

(** A tuple of strings, as pushed on the message stack. *)
Definition Message := list string.

(** Python's truth value of a [str]: every string but the empty one. *)
Definition truthy (s : string) : bool :=
  match s with
  | EmptyString => false
  | String _ _ => true
  end.

(** The synchronization object a [Model] builds for itself, named by the
    object number of the [Model] that owns it. *)
Inductive Condition : Type :=
| ConditionOf (owner : nat).

(** Python's [is] on two conditions. *)
Definition Condition_eqb (c d : Condition) : bool :=
  match c, d with
  | ConditionOf m, ConditionOf n => Nat.eqb m n
  end.

(** ** The data of the application *)

(** What the collaborators are made of: the domain state of a model
    ([model.py]), the state of the view and the screen dimensions it
    reports ([view.py]), what a controller holds besides the two
    attributes [app.pyw] touches ([controller.py]), the commands the
    controller queues and the user input it finds pending at a poll. *)
Class Types : Type := {
  Entities : Type;
  ViewState : Type;
  Dimensions : Type;
  ControllerState : Type;
  Command : Type;
  Input : Type
}.

Section Data.

Context {T : Types}.

(** Modelled from the spec: class [Model] of [model.py], which is not
    among the sources.  A model owns its domain state and one
    synchronization condition [update_background], created with the
    object and its own. *)
Record Model : Type := mkModel {
  model_id : nat;
  entities : Entities
}.

Definition update_background (m : Model) : Condition :=
  ConditionOf (model_id m).

(** Modelled from the spec: the attributes of a [Controller] that
    [app.pyw] reads or writes.  The message stack is an ordered log of
    tuples of strings and [insert] adds one message at its end. *)
Record Controller : Type := mkController {
  message_stack : list Message;
  loading : bool;
  controller_state : ControllerState
}.

Definition MessageStack_insert (m : Message) (stack : list Message)
  : list Message :=
  stack ++ [m].

(** The five attributes set by [App.__init__], and the number of
    [Model] objects built so far (the next one gets that number). *)
Record App : Type := mkApp {
  model : Model;
  view : ViewState;
  controller : Controller;
  running : bool;
  commands : list Command;
  models_built : nat
}.

Definition set_model (m : Model) (a : App) : App :=
  mkApp m (view a) (controller a) (running a) (commands a) (models_built a).

Definition set_entities (e : Entities) (a : App) : App :=
  set_model (mkModel (model_id (model a)) e) a.

Definition set_view (v : ViewState) (a : App) : App :=
  mkApp (model a) v (controller a) (running a) (commands a) (models_built a).

Definition set_controller (c : Controller) (a : App) : App :=
  mkApp (model a) (view a) c (running a) (commands a) (models_built a).

Definition set_running (b : bool) (a : App) : App :=
  mkApp (model a) (view a) (controller a) b (commands a) (models_built a).

Definition set_commands (q : list Command) (a : App) : App :=
  mkApp (model a) (view a) (controller a) (running a) q (models_built a).

Definition set_message_stack (s : list Message) (c : Controller)
  : Controller :=
  mkController s (loading c) (controller_state c).

Definition set_loading (b : bool) (c : Controller) : Controller :=
  mkController (message_stack c) b (controller_state c).

(** What [Controller.handle_input] leaves behind and answers. *)
Record Polled : Type := mkPolled {
  polled_controller : Controller;
  polled_entities : Entities;
  polled_commands : list Command;
  polled_running : bool
}.

(** What [View.update] leaves behind. *)
Record Rendered : Type := mkRendered {
  rendered_view : ViewState;
  rendered_entities : Entities;
  rendered_controller : Controller
}.

(** What the environment supplies to one frame: the input the controller
    finds, and the two readings of the clock. *)
Record FrameEnv : Type := mkFrameEnv {
  pending_input : Input;
  clock_start : float;
  clock_end : float
}.

(** What the methods of [app.pyw] do, one constructor per statement
    that acts on a collaborator, the clock or a thread. *)
Inductive Action : Type :=
| ConstructLoader (filename : string)
| InsertMessage (m : Message)
| ConstructModel (number : nat)
| SetRunning
| ThreadStart (condition : Condition)
| ClockStart (t : float)
| HandleInput
| ViewUpdate
| Execute (c : Command)
| ClearCommands
| ClearLoading
| ClockEnd (t : float)
| Sleep (seconds : float)
| ViewExit
| NotifyAll (condition : Condition)
| Join.

(** A trace lists the actions in program order, each with the
    application as it is right after the action. *)
Definition Trace : Type := list (Action * App).

(** What the background thread does with its condition. *)
Inductive ThreadAction : Type :=
| Acquire (c : Condition)
| Wait (c : Condition)
| Release (c : Condition).

(** Where the background thread is, as the main thread meets it: not
    started yet, blocked in [wait] on a condition, or out of its loop. *)
Inductive ThreadState : Type :=
| NotStarted
| Waiting (c : Condition)
| Finished.

(** The same thread, statement by statement: not started, at the test
    of [while app.running], past a test that found the flag up and on
    its way into [update], blocked inside [condition.wait()], or out of
    the loop. *)
Inductive ThreadPoint : Type :=
| Unstarted
| AtTest (c : Condition)
| BeforeWait (c : Condition)
| InWait (c : Condition)
| Exited.

(** The number of steps the background thread gets to take right after
    each action of the main thread, the actions of [run] being counted
    from 0. *)
Definition Schedule : Type := nat -> nat.

End Data.

(** ** The collaborators *)

(** The operations of the other modules, as [app.pyw] calls them.  Each
    is taken to come back to its caller; only the loader may raise.

    - [default_entities]: the contents of a model after [Model()];
    - [View_init], [Controller_init]: the objects [View()] and
      [Controller()] build;
    - [get_screen_dimensions], [view_exit], [view_update]: the three
      methods of the view; [update] is handed the model and the
      controller and may change both;
    - [Loader]: [Loader(model, filename)] of [tools.py] fills the model
      it is given in place and returns, or raises part of the way
      through;
    - [handle_input]: [Controller.handle_input(model, screen_dimensions,
      commands)] consumes the pending input, may change the controller,
      the model and the list it is handed, and answers whether to keep
      running. *)
Class Collaborators {T : Types} : Type := {
  default_entities : Entities;
  View_init : ViewState;
  Controller_init : Controller;
  get_screen_dimensions : ViewState -> Dimensions;
  view_exit : ViewState -> ViewState;
  view_update : ViewState -> Entities -> Controller -> Rendered;
  Loader : Entities -> string -> Outcome Entities unit;
  handle_input :
    Input -> Controller -> Entities -> Dimensions -> list Command -> Polled
}.

(** [command.execute(app)] receives the whole application and may
    change any of it.  [self.commands] is a list object, and a command
    has two ways to change the queue.  It may work on the list in place
    ([append], [pop], [clear]): the loop of line 71, which is going
    through that very list, sees the change.  Or it may assign
    [app.commands] another list object: the loop goes on through the
    list it started on.  Both ways show in [commands (execute c a)];
    they are told apart by

    - [rebinds c a]: [None] when [app.commands] is after the command
      the list object it was before, and [Some l] when the command
      assigned another one, [l] being what the list object it was bound
      to before holds after the command;
    - [reaches c a l]: what the command leaves in a list object holding
      [l] that [app.commands] was bound to earlier and is no longer
      (it stays [l] unless the command kept a reference to it). *)
Class Commands {T : Types} : Type := {
  execute : Command -> App -> App;
  rebinds : Command -> App -> option (list Command);
  reaches : Command -> App -> list Command -> list Command
}.

(** The loop of line 71 goes on for as long as commands lengthen the
    list it goes through, for ever if they never stop.  The model
    follows it for [patience] tests of its index more than the queue
    takes when no command lengthens it, and answers [Pending] when that
    is not enough.  What the model answers when the loop ends does not
    depend on how much patience there is, and the properties below are
    proved for every patience. *)
Class Patience : Type := {
  patience : nat
}.

Section Application.

Context {T : Types} {W : Collaborators} {K : Commands} {Pt : Patience}.

(** Modelled from the spec: [Model()] yields a new object in the
    default, empty state. *)
Definition Model_init (fresh : nat) : Model :=
  {| model_id := fresh; entities := default_entities |}.

(** [self.model = Model()]: a new object with the next free number. *)
Definition assign_new_model (a : App) : App :=
  mkApp (Model_init (models_built a)) (view a) (controller a)
        (running a) (commands a) (S (models_built a)).

(** *** A small monad: state, exceptions and a trace *)

Definition M (A : Type) : Type := App -> Outcome App A * Trace.

Definition ret {A : Type} (v : A) : M A :=
  fun s => (Returns v s, []).

Definition bind {A B : Type} (m : M A) (k : A -> M B) : M B :=
  fun s =>
    match m s with
    | (Returns v s1, t1) => let (o, t2) := k v s1 in (o, t1 ++ t2)
    | (Raises s1, t1) => (Raises s1, t1)
    | (Pending s1, t1) => (Pending s1, t1)
    end.

Definition seq {A : Type} (m : M unit) (k : M A) : M A :=
  bind m (fun _ => k).

(** Sequencing in which what follows is told the trace so far. *)
Definition bind_seen {A B : Type} (m : M A) (k : Trace -> A -> M B) : M B :=
  fun s =>
    match m s with
    | (Returns v s1, t1) => let (o, t2) := k t1 v s1 in (o, t1 ++ t2)
    | (Raises s1, t1) => (Raises s1, t1)
    | (Pending s1, t1) => (Pending s1, t1)
    end.

Local Notation "m ;; k" := (seq m k) (at level 61, right associativity).

(** One action that cannot fail: it changes the state and is logged
    together with the new state. *)
Definition act (a : Action) (f : App -> App) : M unit :=
  fun s => (Returns tt (f s), [(a, f s)]).

(** [try: body  except: handler], with a bare [except] that catches
    every exception; the handler starts from the state the body left. *)
Definition try_except {A : Type} (body handler : M A) : M A :=
  fun s =>
    match body s with
    | (Raises s1, t1) => let (o, t2) := handler s1 in (o, t1 ++ t2)
    | done => done
    end.

(** *** [App.load_from_file] *)

(** [loader = Loader(self.model, filename)]: the model object is the one
    the application holds, so what the loader did to it is visible
    through [self.model] whether the constructor returns or raises. *)
Definition construct_Loader (filename : string) : M unit :=
  fun s =>
    match Loader (entities (model s)) filename with
    | Returns _ e =>
        (Returns tt (set_entities e s),
         [(ConstructLoader filename, set_entities e s)])
    | Raises e =>
        (Raises (set_entities e s),
         [(ConstructLoader filename, set_entities e s)])
    | Pending e =>
        (Pending (set_entities e s),
         [(ConstructLoader filename, set_entities e s)])
    end.

(** [self.controller.message_stack.insert(m)] *)
Definition with_message (m : Message) (s : App) : App :=
  set_controller
    (set_message_stack
       (MessageStack_insert m (message_stack (controller s)))
       (controller s))
    s.

Definition insert_message (m : Message) : M unit :=
  act (InsertMessage m) (with_message m).

(** [self.model = Model()] *)
Definition reset_model : M unit :=
  fun s => act (ConstructModel (models_built s)) assign_new_model s.

Definition load_from_file (filename : string) : M unit :=
  try_except
    (construct_Loader filename ;;
     insert_message [("Loaded from save file: " ++ filename)%string])
    (insert_message [("Error loading save file: " ++ filename)%string] ;;
     reset_model).

(** *** [App.__init__] *)

(** The attributes as lines 17 to 25 leave them; the trace shows these
    lines as one step, named after the first of them. *)
Definition App_fields : App :=
  mkApp (Model_init 0) View_init Controller_init false [] 1.

Definition App_init (load : string) : Outcome App unit * Trace :=
  (act (ConstructModel 0) (fun s => s) ;;
   if truthy load then load_from_file load else ret tt) App_fields.

(** *** [App.execute_commands] *)

(** [for command in self.commands: command.execute(self)].  Python
    evaluates [self.commands] once and goes through that list object
    with an index; it stops when the index is past the end the list has
    then.  So a command that lengthens, shortens or empties the list in
    place changes what the loop visits, and a command that assigns
    [app.commands] another list does not.

    The list the loop goes through is the one [self.commands] is bound
    to ([None]) or, once a command has assigned another one, the list
    it was bound to when the loop started, with what it holds
    ([Some l]). *)
Definition iterated_list (it : option (list Command)) (s : App)
  : list Command :=
  match it with
  | None => commands s
  | Some l => l
  end.

(** What executing [c] in [s] makes of the list the loop goes through. *)
Definition iterated_after (c : Command) (s : App)
           (it : option (list Command)) : option (list Command) :=
  match it with
  | None => rebinds c s
  | Some l => Some (reaches c s l)
  end.

(** [fuel] bounds the number of tests of the index. *)
Fixpoint for_commands (fuel i : nat) (it : option (list Command)) (s : App)
         {struct fuel} : Outcome App unit * Trace :=
  match fuel with
  | O => (Pending s, [])
  | S fuel' =>
      match nth_error (iterated_list it s) i with
      | None => ret tt s
      | Some c =>
          (act (Execute c) (execute c) ;;
           for_commands fuel' (S i) (iterated_after c s it)) s
      end
  end.

(** [self.controller.loading = False] *)
Definition clear_loading (s : App) : App :=
  set_controller (set_loading false (controller s)) s.

(** The loop starts at index 0 of the list [self.commands] is bound to.
    It is given one test of the index more than the queue is long on
    entry, which is what it takes when no command lengthens the queue,
    and [patience] more.  [self.commands.clear()] empties, in place, the
    list [self.commands] is bound to after the loop. *)
Definition execute_commands : M unit :=
  fun s =>
    (for_commands (S (List.length (commands s)) + patience) 0 None ;;
     act ClearCommands (set_commands []) ;;
     act ClearLoading clear_loading) s.

(** *** [App.cap_frame_rate] *)

Definition cap_frame_rate (frame_duration : float) : M unit :=
  if (frame_duration <? 0.16)%float
  then act (Sleep 0.008%float) (fun s => s)
  else ret tt.

(** *** [App.notify_background_thread] *)

Definition notify_background_thread : M unit :=
  fun s => act (NotifyAll (update_background (model s))) (fun s1 => s1) s.

(** *** [App.run]: the frames *)

(** [self.running = self.controller.handle_input(self.model,
    self.view.get_screen_dimensions(), self.commands)]: the model and
    the queue are handed over as objects, so what the controller does to
    them shows through [self.model] and [self.commands]. *)
Definition polled (i : Input) (s : App) : App :=
  let p := handle_input i (controller s) (entities (model s))
                        (get_screen_dimensions (view s)) (commands s) in
  mkApp (mkModel (model_id (model s)) (polled_entities p))
        (view s) (polled_controller p) (polled_running p)
        (polled_commands p) (models_built s).

Definition poll (i : Input) : M unit :=
  act HandleInput (polled i).

(** [self.view.update(self.model, self.controller)] *)
Definition rendered (s : App) : App :=
  let r := view_update (view s) (entities (model s)) (controller s) in
  mkApp (mkModel (model_id (model s)) (rendered_entities r))
        (rendered_view r) (rendered_controller r) (running s)
        (commands s) (models_built s).

Definition render : M unit :=
  act ViewUpdate rendered.

(** The body of the [while] loop. *)
Definition frame (env : FrameEnv) : M unit :=
  act (ClockStart (clock_start env)) (fun s => s) ;;
  poll (pending_input env) ;;
  render ;;
  execute_commands ;;
  act (ClockEnd (clock_end env)) (fun s => s) ;;
  cap_frame_rate (clock_end env - clock_start env)%float.

(** [while self.running: ...], one element of [envs] per frame; the loop
    is [Pending] when it wants a frame and [envs] has none left. *)
Fixpoint main_loop (envs : list FrameEnv) (s : App) {struct envs}
  : Outcome App unit * Trace :=
  if running s then
    match envs with
    | [] => (Pending s, [])
    | env :: rest => (frame env ;; main_loop rest) s
    end
  else ret tt s.

(** [background_thread.start()], with the arguments of line 39. *)
Definition start_background_thread : M unit :=
  fun s => act (ThreadStart (update_background (model s))) (fun s1 => s1) s.

(** [self.view.exit()] *)
Definition exited (s : App) : App :=
  set_view (view_exit (view s)) s.

(** *** The background thread *)

(** [BackgroundUpdater.update]: [with condition: condition.wait()] *)
Definition update (condition : Condition) : list ThreadAction :=
  [Acquire condition; Wait condition; Release condition].

(** [App.background_updates]: [while app.running: update(app, condition)].
    The flag belongs to the main thread; [reads] lists what the tests of
    the loop find in it, one after the other. *)
Fixpoint background_updates (reads : list bool) (condition : Condition)
  : list ThreadAction :=
  match reads with
  | true :: rest => update condition ++ background_updates rest condition
  | _ => []
  end.

(** The same loop, seen from the main thread.  The thread is taken to
    run as soon as it can: from a test of its loop it goes on until it
    blocks in [wait] or, the flag being down, leaves the loop. *)
Definition thread_runs (flag : bool) (condition : Condition) : ThreadState :=
  if flag then Waiting condition else Finished.

(** What an action of the main thread does to the background thread:
    [start] sets it running, and a [notify_all] on the very condition it
    waits on lets it come back from [wait] to the test of its loop.  The
    flag it reads is the one the application holds right then. *)
Definition thread_sees (st : ThreadState) (e : Action * App) : ThreadState :=
  match fst e, st with
  | ThreadStart c, NotStarted => thread_runs (running (snd e)) c
  | NotifyAll c', Waiting c =>
      if Condition_eqb c' c then thread_runs (running (snd e)) c else st
  | _, _ => st
  end.

Definition thread_after (t : Trace) : ThreadState :=
  fold_left thread_sees t NotStarted.

(** [background_thread.join()], [seen] being what the main thread did so
    far: the call comes back once the thread is out of its loop, and
    does not come back while the thread is blocked. *)
Definition join (seen : Trace) : M unit :=
  fun s =>
    match thread_after seen with
    | Finished => (Returns tt s, [(Join, s)])
    | Waiting _ => (Pending s, [(Join, s)])
    | NotStarted => (Raises s, [(Join, s)])
    end.

(** *** [App.run], the whole of it *)

Definition run (envs : list FrameEnv) : M bool :=
  bind_seen
    (act SetRunning (set_running true) ;;
     start_background_thread ;;
     main_loop envs ;;
     act ViewExit exited ;;
     notify_background_thread)
    (fun seen _ => join seen ;; ret true).

(** [App(load).run()], as the entry point of the file does with the
    default [load]: the trace of the constructor followed by the trace of
    [run] from the state the constructor left. *)
Definition lifetime (load : string) (envs : list FrameEnv) : Trace :=
  snd (App_init load) ++ snd (run envs (state_of (fst (App_init load)))).

(** *** The two threads, interleaved *)

(** One step of [background_updates] and [BackgroundUpdater.update]:
    the test of [while app.running] reads the flag as the main thread
    left it and goes on into [update] or out of the loop; [with
    condition: condition.wait()] takes the lock and blocks.  Between the
    test and the [with] the thread holds no lock, so the main thread may
    run in between.  A blocked thread takes no step of its own. *)
Definition thread_step (flag : bool) (p : ThreadPoint) : ThreadPoint :=
  match p with
  | AtTest c => if flag then BeforeWait c else Exited
  | BeforeWait c => InWait c
  | _ => p
  end.

Fixpoint thread_steps (n : nat) (flag : bool) (p : ThreadPoint)
  : ThreadPoint :=
  match n with
  | O => p
  | S n' => thread_steps n' flag (thread_step flag p)
  end.

(** What an action of the main thread does to the background thread:
    [start] puts it at the first test of its loop, and a [notify_all]
    wakes it when it is blocked in [wait] on the very condition
    notified; it then leaves [update] and is back at the test.  A
    notification that finds nobody waiting is lost. *)
Definition main_step (p : ThreadPoint) (e : Action * App) : ThreadPoint :=
  match fst e, p with
  | ThreadStart c, Unstarted => AtTest c
  | NotifyAll c', InWait c => if Condition_eqb c' c then AtTest c else p
  | _, _ => p
  end.

(** The main thread goes through the trace [t], whose first action has
    number [i]; after each action the background thread takes the steps
    the schedule gives it.  The notifications of a trace are those
    [app.pyw] sends, in [notify_background_thread]; what a model may
    notify on its own, in [model.py], is not part of it. *)
Fixpoint interleaved (schedule : Schedule) (i : nat) (t : Trace)
         (p : ThreadPoint) {struct t} : ThreadPoint :=
  match t with
  | [] => p
  | e :: t' =>
      interleaved schedule (S i) t'
        (thread_steps (schedule i) (running (snd e)) (main_step p e))
  end.

(** [background_thread.join()] under a schedule: the main thread is
    blocked, so the background thread runs alone from where it is, as
    far as it gets (two steps take it into [wait] or out of the loop);
    [join] comes back when the thread has left its loop. *)
Definition join_scheduled (schedule : Schedule) (seen : Trace) : M unit :=
  fun s =>
    match thread_steps 2 (running s) (interleaved schedule 0 seen Unstarted)
    with
    | Exited => (Returns tt s, [(Join, s)])
    | Unstarted => (Raises s, [(Join, s)])
    | _ => (Pending s, [(Join, s)])
    end.

(** [App.run] with the background thread on a schedule; [run] is the
    case of a thread that always gets its two steps at once. *)
Definition run_scheduled (schedule : Schedule) (envs : list FrameEnv)
  : M bool :=
  bind_seen
    (act SetRunning (set_running true) ;;
     start_background_thread ;;
     main_loop envs ;;
     act ViewExit exited ;;
     notify_background_thread)
    (fun seen _ => join_scheduled schedule seen ;; ret true).


End Application.

(** ** The vocabulary of the properties *)

Section Vocabulary.

Context {T : Types} {W : Collaborators} {K : Commands}.

(** The actions of one kind in a trace, in order. *)
Definition actions (t : Trace) : list Action := map fst t.

Definition inserted (t : Trace) : list Message :=
  flat_map (fun e => match fst e with InsertMessage m => [m] | _ => [] end) t.

Definition loaders (t : Trace) : list string :=
  flat_map (fun e => match fst e with ConstructLoader f => [f] | _ => [] end) t.

Definition executed (t : Trace) : list Command :=
  flat_map (fun e => match fst e with Execute c => [c] | _ => [] end) t.

Definition slept (t : Trace) : list float :=
  flat_map (fun e => match fst e with Sleep d => [d] | _ => [] end) t.

Definition started (t : Trace) : list Condition :=
  flat_map (fun e => match fst e with ThreadStart c => [c] | _ => [] end) t.

Definition notified (t : Trace) : list Condition :=
  flat_map (fun e => match fst e with NotifyAll c => [c] | _ => [] end) t.

Definition waited (l : list ThreadAction) : list Condition :=
  flat_map (fun a => match a with Wait c => [c] | _ => [] end) l.

(** The value of [self.running] after each action of a trace. *)
Definition flags (t : Trace) : list bool :=
  map (fun e => running (snd e)) t.

(** *** What is asked of the commands *)

(** A command that does not touch [self.commands], whatever state it
    runs in: it neither changes the list nor assigns another one.  The
    controller is the queue's only writer. *)
Definition leaves_queue (c : Command) : Prop :=
  forall a : App, commands (execute c a) = commands a /\ rebinds c a = None.

(** A command that does not assign [self.running]. *)
Definition leaves_running (c : Command) : Prop :=
  forall a : App, running (execute c a) = running a.

(** The model the application holds is one of those built so far. *)
Definition model_numbered (s : App) : Prop :=
  model_id (model s) < models_built s.

(** From [a] to [b] no model was unbuilt, and [self.model] is the object
    it was or one built since. *)
Definition evolves (a b : App) : Prop :=
  model_numbered b
  /\ models_built a <= models_built b
  /\ (model_id (model b) = model_id (model a)
      \/ models_built a <= model_id (model b)).

(** A command that assigns [self.model], if at all, a model built during
    its own execution, as the failure path of [load_from_file] does. *)
Definition builds_fresh (c : Command) : Prop :=
  forall a : App, model_numbered a -> evolves a (execute c a).

(** A command that does not assign [self.model]: after it the
    application holds the model object it held before, whatever the
    command did to that object. *)
Definition keeps_model (c : Command) : Prop :=
  forall a : App, model_id (model (execute c a)) = model_id (model a).

(** *** The queue, one frame and [run], unfolded *)

(** The trace of executing the commands of [q] one after the other, each
    on the state the one before left, and the state at its end. *)
Fixpoint queue_trace (q : list Command) (s : App) : Trace :=
  match q with
  | [] => []
  | c :: q' => (Execute c, execute c s) :: queue_trace q' (execute c s)
  end.

Definition after_queue (q : list Command) (s : App) : App :=
  fold_left (fun a c => execute c a) q s.

(** The state of a frame that started in [s] after its poll and its
    rendering, the state at its end, and its trace, when no command
    touches the queue. *)
Definition frame_polled (env : FrameEnv) (s : App) : App :=
  rendered (polled (pending_input env) s).

Definition frame_end (env : FrameEnv) (s : App) : App :=
  clear_loading
    (set_commands []
       (after_queue (commands (frame_polled env s)) (frame_polled env s))).

Definition pacing (env : FrameEnv) (s : App) : Trace :=
  snd (cap_frame_rate (clock_end env - clock_start env)%float s).

Definition frame_trace (env : FrameEnv) (s : App) : Trace :=
  [(ClockStart (clock_start env), s);
   (HandleInput, polled (pending_input env) s);
   (ViewUpdate, frame_polled env s)]
  ++ queue_trace (commands (frame_polled env s)) (frame_polled env s)
  ++ [(ClearCommands,
       set_commands []
         (after_queue (commands (frame_polled env s)) (frame_polled env s)));
      (ClearLoading, frame_end env s);
      (ClockEnd (clock_end env), frame_end env s)]
  ++ pacing env (frame_end env s).

(** What the poll of a frame answers. *)
Definition frame_flag (env : FrameEnv) (s : App) : bool :=
  running (polled (pending_input env) s).

(** What [run] does before the loop and after it. *)
Definition startup_trace (s : App) : Trace :=
  [(SetRunning, set_running true s);
   (ThreadStart (update_background (model s)), set_running true s)].

Definition shutdown_trace (s : App) : Trace :=
  [(ViewExit, exited s);
   (NotifyAll (update_background (model s)), exited s);
   (Join, exited s)].

(** How [run] ends once it has called [join], [seen] being its trace up
    to the notification. *)
Definition join_outcome (seen : Trace) (s : App) : Outcome App bool :=
  match thread_after seen with
  | Finished => Returns true s
  | Waiting _ => Pending s
  | NotStarted => Raises s
  end.

Definition before_join (s s1 : App) (frames : Trace) : Trace :=
  startup_trace s ++ frames
  ++ [(ViewExit, exited s1);
      (NotifyAll (update_background (model s1)), exited s1)].

(** The executions of commands. *)
Definition is_execution (a : Action) : bool :=
  match a with
  | Execute _ => true
  | _ => false
  end.


(** *** The queue between frames *)

(** The actions after which the queue may hold commands: the poll that
    fills it, the rendering, and the executions that work through it. *)
Definition in_window (a : Action) : bool :=
  match a with
  | HandleInput | ViewUpdate | Execute _ => true
  | _ => false
  end.

Definition queue_rule (e : Action * App) : Prop :=
  in_window (fst e) = false -> commands (snd e) = [].

(** *** The flag *)


Definition is_frame_start (a : Action) : bool :=
  match a with
  | ClockStart _ => true
  | _ => false
  end.

(** A frame starts only while the flag is up. *)
Definition start_rule (e : Action * App) : Prop :=
  is_frame_start (fst e) = true -> running (snd e) = true.


(** *** Shutdown *)

(** The actions a frame is made of. *)
Definition is_frame_action (a : Action) : bool :=
  match a with
  | ClockStart _ | HandleInput | ViewUpdate | Execute _
  | ClearCommands | ClearLoading | ClockEnd _ | Sleep _ => true
  | _ => false
  end.

Definition frame_rule (e : Action * App) : Prop :=
  is_frame_action (fst e) = true.

(** *** The model the application holds *)



(** *** What a run polls, renders and sleeps *)

(** The queue as each poll left it, one poll after the other. *)
Definition queued (t : Trace) : list Command :=
  flat_map
    (fun e => match fst e with HandleInput => commands (snd e) | _ => [] end)
    t.

(** What each poll answered, that is, what it left in [self.running]. *)
Definition answers (t : Trace) : list bool :=
  flat_map
    (fun e => match fst e with HandleInput => [running (snd e)] | _ => [] end)
    t.

Definition is_rendering (a : Action) : bool :=
  match a with
  | ViewUpdate => true
  | _ => false
  end.

Definition renderings (t : Trace) : nat :=
  List.length (filter (fun e => is_rendering (fst e)) t).

(** The sleep that the two clock readings of a frame call for. *)
Definition frame_sleep (env : FrameEnv) : list float :=
  if (clock_end env - clock_start env <? 0.16)%float
  then [0.008%float]
  else [].

(** *** The order of the actions of [run] *)

(** Where [run] stands between two of its actions: called, with the
    flag set, at the test of its loop, inside a frame after the first
    clock reading, the poll, the rendering (and any number of commands),
    the clearing of the queue, the clearing of [loading] and the second
    clock reading, and in its shutdown after [view.exit()], the
    notification and [join]. *)
Inductive Stage : Type :=
| Called
| FlagUp
| LoopTest
| Clocked
| Polling
| Working
| QueueCleared
| Settled
| Timed
| ViewClosed
| Notified
| Joined.

(** The action that may come next at each stage.  After the second
    clock reading the frame sleeps or not; the loop is then tested, and
    goes into another frame or on to the shutdown. *)
Definition next_stage (st : Stage) (a : Action) : option Stage :=
  match st, a with
  | Called, SetRunning => Some FlagUp
  | FlagUp, ThreadStart _ => Some LoopTest
  | (LoopTest | Timed), ClockStart _ => Some Clocked
  | Clocked, HandleInput => Some Polling
  | Polling, ViewUpdate => Some Working
  | Working, Execute _ => Some Working
  | Working, ClearCommands => Some QueueCleared
  | QueueCleared, ClearLoading => Some Settled
  | Settled, ClockEnd _ => Some Timed
  | Timed, Sleep _ => Some LoopTest
  | (LoopTest | Timed), ViewExit => Some ViewClosed
  | ViewClosed, NotifyAll _ => Some Notified
  | Notified, Join => Some Joined
  | _, _ => None
  end.

Fixpoint stages (st : Stage) (l : list Action) : option Stage :=
  match l with
  | [] => Some st
  | a :: l' =>
      match next_stage st a with
      | Some st' => stages st' l'
      | None => None
      end
  end.

(** The stages at which the loop is tested. *)
Definition at_loop_test (st : Stage) : bool :=
  match st with
  | LoopTest | Timed => true
  | _ => false
  end.

(** *** The background thread on a schedule *)

(** How [run] ends once it has called [join] and the background thread
    has gone as far as it gets. *)
Definition outcome_at (p : ThreadPoint) (s : App) : Outcome App bool :=
  match p with
  | Exited => Returns true s
  | Unstarted => Raises s
  | _ => Pending s
  end.


(** The thread is on the condition [c] or on none. *)
Definition bound_to (c : Condition) (p : ThreadPoint) : Prop :=
  match p with
  | AtTest c' | BeforeWait c' | InWait c' => c' = c
  | _ => True
  end.

(** The thread has not been through a test that found the flag up. *)
Definition untested (p : ThreadPoint) : bool :=
  match p with
  | Unstarted | AtTest _ | Exited => true
  | _ => false
  end.

End Vocabulary.

(** ** A concrete sketcher *)

(** Collaborators small enough to run: the entities of a model are a
    list of names, the view counts the frames it rendered, a command
    adds an entity or loads a file, and the only file that loads is
    "plan.sav"; on any other the loader gives up after tearing the
    model. *)
Inductive SketchCommand : Type :=
| AddEntity (name : string)
| LoadFile (filename : string).

Inductive SketchInput : Type :=
| Idle
| Key (c : SketchCommand)
| Quit.

#[global] Instance sketch_types : Types := {|
  Entities := list string;
  ViewState := nat;
  Dimensions := nat * nat;
  ControllerState := unit;
  Command := SketchCommand;
  Input := SketchInput
|}.

Definition sketch_Loader (e : list string) (filename : string)
  : Outcome (list string) unit :=
  if String.eqb filename "plan.sav"
  then Returns tt ("wall"%string :: e)
  else Raises ("torn"%string :: e).

Definition sketch_handle_input (i : SketchInput) (c : Controller)
           (e : list string) (d : nat * nat) (q : list SketchCommand)
  : Polled :=
  match i with
  | Idle => mkPolled c e q true
  | Key k => mkPolled c e (q ++ [k]) true
  | Quit => mkPolled c e q false
  end.

#[global] Instance sketch_collaborators : Collaborators := {|
  default_entities := [];
  View_init := 0;
  Controller_init := mkController [] false tt;
  get_screen_dimensions := fun _ => (800, 600);
  view_exit := fun v => v;
  view_update := fun v e c => mkRendered (S v) e c;
  Loader := sketch_Loader;
  handle_input := sketch_handle_input
|}.

Definition sketch_execute (c : SketchCommand) (a : App) : App :=
  match c with
  | AddEntity n => set_entities (n :: entities (model a)) a
  | LoadFile f => state_of (fst (load_from_file f a))
  end.

#[global] Instance sketch_commands : Commands := {|
  execute := sketch_execute;
  rebinds := fun _ _ => None;
  reaches := fun _ _ l => l
|}.

(** How far the concrete runs below follow a lengthening queue. *)
#[global] Instance patience_of_the_runs : Patience := {|
  patience := 8
|}.

(** The application right after [App()]. *)
Definition sketch_new : App := App_fields.

(** A frame that takes four milliseconds. *)
Definition quick (i : SketchInput) : FrameEnv :=
  mkFrameEnv i 0.25%float 0.254%float.

(** Two frames: a key that asks for a file that does not load, then the
    request to quit. *)
Definition sketch_reload : list FrameEnv :=
  [quick (Key (LoadFile "bad.sav")); quick Quit].

(** A queue of three commands, as the controller would leave it. *)
Definition sketch_queued : App :=
  set_commands [AddEntity "door"; LoadFile "bad.sav"; AddEntity "window"]
               sketch_new.

(** A frame that takes a quarter of a second. *)
Definition slow (i : SketchInput) : FrameEnv :=
  mkFrameEnv i 0.25%float 0.5%float.

(** A short session: a door is added, a slow frame goes by, the user
    quits; a frame that nobody gets to see is still in the input. *)
Definition sketch_session : list FrameEnv :=
  [quick (Key (AddEntity "door")); slow Idle; quick Quit; quick Idle].


Definition tested_only : Schedule :=
  fun i => if Nat.eqb i 1 then 1 else 0.

Definition held_back : Schedule :=
  fun _ => 0.

(** Two frames in which the model stays the object it was. *)
Definition sketch_door : list FrameEnv :=
  [quick (Key (AddEntity "door")); quick Quit].

(** ** A scripted application *)

(** Commands that do what the sketcher's never do: they work on the
    queue in place, assign another one, raise the flag, replace the
    model and put the first model back.  In Python:

    - [Mark name]: [app.controller.message_stack.insert((name,))];
    - [PopFirst]: [app.commands.pop(0)];
    - [Append name]: [app.commands.append(Mark(name))];
    - [Clear]: [app.commands.clear()];
    - [Rebind]: [app.commands = []];
    - [Resume]: [app.running = True];
    - [NewModel]: [app.model = Model()];
    - [FirstModel]: [app.model = first], the command having kept the
      model that [App()] built. *)
Inductive ScriptCommand : Type :=
| Mark (name : string)
| PopFirst
| Append (name : string)
| Clear
| Rebind
| Resume
| NewModel
| FirstModel.

(** What the controller finds at a poll: commands to queue, and whether
    to go on. *)
Record ScriptInput : Type := mkScriptInput {
  keys : list ScriptCommand;
  go_on : bool
}.

Definition script_types : Types := {|
  Entities := unit;
  ViewState := nat;
  Dimensions := unit;
  ControllerState := unit;
  Command := ScriptCommand;
  Input := ScriptInput
|}.

Section Scripts.

#[local] Existing Instance script_types.

Definition script_handle_input (i : ScriptInput) (c : Controller)
           (e : unit) (d : unit) (q : list ScriptCommand) : Polled :=
  mkPolled c e (q ++ keys i) (go_on i).

(** No model of a script is ever changed, and every file loads. *)
Definition script_collaborators : Collaborators := {|
  default_entities := tt;
  View_init := 0;
  Controller_init := mkController [] false tt;
  get_screen_dimensions := fun _ => tt;
  view_exit := fun v => v;
  view_update := fun v e c => mkRendered (S v) e c;
  Loader := fun e _ => Returns tt e;
  handle_input := script_handle_input
|}.

#[local] Existing Instance script_collaborators.

Definition script_execute (c : ScriptCommand) (a : App) : App :=
  match c with
  | Mark name => with_message [name] a
  | PopFirst => set_commands (tl (commands a)) a
  | Append name => set_commands (commands a ++ [Mark name]) a
  | Clear => set_commands [] a
  | Rebind => set_commands [] a
  | Resume => set_running true a
  | NewModel => assign_new_model a
  | FirstModel => set_model (Model_init 0) a
  end.

(** Only [Rebind] assigns [app.commands]; the list it was bound to is
    left as it was. *)
Definition script_rebinds (c : ScriptCommand) (a : App)
  : option (list ScriptCommand) :=
  match c with
  | Rebind => Some (commands a)
  | _ => None
  end.

Definition script_commands : Commands := {|
  execute := script_execute;
  rebinds := script_rebinds;
  reaches := fun _ _ l => l
|}.

#[local] Existing Instance script_commands.

(** The application right after [App()]. *)
Definition script_new : App := App_fields.

(** A frame of four milliseconds in which the controller queues [ks]
    and answers [b]. *)
Definition tick (ks : list ScriptCommand) (b : bool) : FrameEnv :=
  mkFrameEnv (mkScriptInput ks b) 0.25%float 0.254%float.

(** Four queues, as the controller would leave them. *)
Definition script_popped : App :=
  set_commands [PopFirst; Mark "b"; Mark "c"] script_new.

Definition script_appended : App :=
  set_commands [Append "late"; Mark "b"] script_new.

Definition script_cleared : App :=
  set_commands [Clear; Mark "b"] script_new.

Definition script_rebound : App :=
  set_commands [Rebind; Mark "b"] script_new.

(** Two frames of commands that change the queue under the loop. *)
Definition script_busy : list FrameEnv :=
  [tick [Append "late"; Rebind; Mark "b"] true;
   tick [PopFirst; Mark "b"; Mark "c"] false].



End Scripts.

(** ** Properties *)

Section Properties.

Context {T : Types} {W : Collaborators} {K : Commands} {Pt : Patience}.

Local Notation "m ;; k" := (seq m k) (at level 61, right associativity).

(** *** The load and recovery path *)

Lemma seq_act (A : Type) (a : Action) (f : App -> App) (k : M A) (s : App) :
  (act a f ;; k) s = (fst (k (f s)), (a, f s) :: snd (k (f s))).
Proof.
  unfold seq, bind, act. destruct (k (f s)) as [o t]. reflexivity.
Qed.

(** C1: when [Loader(self.model, filename)] raises, [load_from_file]
    returns normally (no exception reaches the caller); it has pushed
    exactly one message, the 1-tuple of "Error loading save file: "
    followed by the filename, at the end of the controller's message
    stack, and [self.model] is a newly built [Model] in the default state
    (the next object number, the default entities), another object than
    the one held before.  The view, the flag and the queue are as
    before. *)
Theorem load_from_file_failure (filename : string) (self : App)
        (partly : Entities) :
  Loader (entities (model self)) filename = Raises partly ->
  exists t : Trace,
    load_from_file filename self =
      (Returns tt
         (mkApp (Model_init (models_built self))
                (view self)
                (mkController
                   (message_stack (controller self)
                    ++ [[("Error loading save file: " ++ filename)%string]])
                   (loading (controller self))
                   (controller_state (controller self)))
                (running self) (commands self) (S (models_built self))),
       t)
    /\ loaders t = [filename]
    /\ inserted t = [[("Error loading save file: " ++ filename)%string]]
    /\ (model_numbered self ->
        model_id (Model_init (models_built self)) <> model_id (model self)).
Proof.
  intros Hraise.
  unfold load_from_file, try_except, seq, bind, construct_Loader.
  rewrite Hraise. cbn.
  eexists. split; [reflexivity | split; [reflexivity | split]].
  - reflexivity.
  - unfold model_numbered. lia.
Qed.

(** C2: when [Loader(self.model, filename)] returns, [load_from_file]
    has pushed exactly one message, the 1-tuple of "Loaded from save
    file: " followed by the filename, and [self.model] is the object it
    was (same object number), holding what the loader put in it; no
    [Model] was built. *)
Theorem load_from_file_success (filename : string) (self : App)
        (filled : Entities) :
  Loader (entities (model self)) filename = Returns tt filled ->
  exists t : Trace,
    load_from_file filename self =
      (Returns tt
         (mkApp (mkModel (model_id (model self)) filled)
                (view self)
                (mkController
                   (message_stack (controller self)
                    ++ [[("Loaded from save file: " ++ filename)%string]])
                   (loading (controller self))
                   (controller_state (controller self)))
                (running self) (commands self) (models_built self)),
       t)
    /\ loaders t = [filename]
    /\ inserted t = [[("Loaded from save file: " ++ filename)%string]].
Proof.
  intros Hok.
  unfold load_from_file, try_except, seq, bind, construct_Loader.
  rewrite Hok. cbn.
  eexists. split; [reflexivity | split; reflexivity].
Qed.

(** C9: [App()] and [App(load = '')] make no attempt to load: the trace
    of the constructor holds no construction of a [Loader] and no
    insertion of a message, the message stack is the one [Controller()]
    made, and the model is the first [Model] in its default state. *)
Theorem App_init_without_load :
  App_init "" = (Returns tt App_fields, [(ConstructModel 0, App_fields)])
  /\ loaders (snd (App_init "")) = []
  /\ inserted (snd (App_init "")) = []
  /\ controller (state_of (fst (App_init ""))) = Controller_init
  /\ model (state_of (fst (App_init ""))) = Model_init 0.
Proof.
  repeat split.
Qed.

(** *** Frame pacing *)

Lemma compare_cont_flip (m1 m2 : positive) :
  Pos.compare_cont Eq m2 m1 = CompOpp (Pos.compare_cont Eq m1 m2).
Proof.
  rewrite Pos.compare_cont_antisym. reflexivity.
Qed.

Lemma SFleb_not_SFltb (x y : spec_float) :
  SFleb x y = true -> SFltb y x = false.
Proof.
  unfold SFleb, SFltb.
  destruct x as [ [|] | [|] | | [|] m1 e1 ], y as [ [|] | [|] | | [|] m2 e2 ];
    cbn; try congruence;
    rewrite (Z.compare_antisym e1 e2), (compare_cont_flip m1 m2);
    destruct (e1 ?= e2)%Z; cbn; try congruence;
    destruct (Pos.compare_cont Eq m1 m2); cbn; congruence.
Qed.

Lemma leb_not_ltb (x y : float) :
  (x <=? y)%float = true -> (y <? x)%float = false.
Proof.
  rewrite leb_spec, ltb_spec. apply SFleb_not_SFltb.
Qed.

(** C6: [cap_frame_rate(d)] sleeps once, for 0.008 seconds, when
    [d < 0.16], and does not sleep when [d >= 0.16]; either way it changes
    nothing in the application.  The comparisons are those of binary64
    floating-point numbers, as in Python. *)
Theorem cap_frame_rate_threshold (d : float) (s : App) :
  ((d <? 0.16)%float = true ->
     cap_frame_rate d s = (Returns tt s, [(Sleep 0.008%float, s)])
     /\ slept (snd (cap_frame_rate d s)) = [0.008%float])
  /\
  ((0.16 <=? d)%float = true ->
     cap_frame_rate d s = (Returns tt s, [])
     /\ slept (snd (cap_frame_rate d s)) = []).
Proof.
  unfold cap_frame_rate. split; intros H.
  - rewrite H. split; reflexivity.
  - rewrite (leb_not_ltb _ _ H). split; reflexivity.
Qed.

(** C7 fails on the code: a frame that took 0.05 seconds, three times
    the 16 ms the comment of line 81 speaks of, is still followed by the
    sleep, because line 82 compares with 0.16. *)
Lemma cap_frame_rate_above_16ms (s : App) :
  (0.05 <? 0.016)%float = false
  /\ slept (snd (cap_frame_rate 0.05%float s)) = [0.008%float].
Proof.
  split; reflexivity.
Qed.

(** *** The command queue *)

Lemma bind_returns (A B : Type) (m : M A) (k : A -> M B) (s s1 : App)
      (v : A) (t1 : Trace) :
  m s = (Returns v s1, t1) ->
  bind m k s = (fst (k v s1), t1 ++ snd (k v s1)).
Proof.
  intros H. unfold bind. rewrite H. destruct (k v s1); reflexivity.
Qed.

Lemma seq_returns (B : Type) (m : M unit) (k : M B) (s s1 : App)
      (t1 : Trace) :
  m s = (Returns tt s1, t1) ->
  (m ;; k) s = (fst (k s1), t1 ++ snd (k s1)).
Proof.
  intros H. unfold seq.
  exact (@bind_returns unit B m (fun _ => k) s s1 tt t1 H).
Qed.

Lemma seq_stops (B : Type) (m : M unit) (k : M B) (s s1 : App)
      (t1 : Trace) :
  (m s = (Pending s1, t1) -> (m ;; k) s = (Pending s1, t1))
  /\ (m s = (Raises s1, t1) -> (m ;; k) s = (Raises s1, t1)).
Proof.
  unfold seq, bind. split; intros H; rewrite H; reflexivity.
Qed.

Lemma after_queue_commands (q : list Command) (s : App) :
  (forall c, In c q -> leaves_queue c) ->
  commands (after_queue q s) = commands s.
Proof.
  revert s. induction q as [|c q IH]; intros s Hq; [reflexivity|].
  change (after_queue (c :: q) s) with (after_queue q (execute c s)).
  rewrite IH.
  - apply (Hq c (or_introl eq_refl) s).
  - intros c' Hc'. apply Hq. right. exact Hc'.
Qed.

(** The loop over the live list visits exactly the commands that were
    queued, provided none of them touches the queue. *)
Lemma for_commands_queue (rest : list Command) :
  forall (visited : list Command) (s : App) (fuel : nat),
    commands s = visited ++ rest ->
    (forall c, In c rest -> leaves_queue c) ->
    List.length rest < fuel ->
    for_commands fuel (List.length visited) None s =
      (Returns tt (after_queue rest s), queue_trace rest s).
Proof.
  induction rest as [|c rest IH]; intros visited s fuel Hs Hq Hfuel;
    (destruct fuel as [|fuel]; [cbn in Hfuel; lia|]).
  - cbn. rewrite Hs, app_nil_r.
    replace (nth_error visited (List.length visited)) with (@None Command).
    + reflexivity.
    + symmetry. apply nth_error_None. lia.
  - cbn [for_commands iterated_list iterated_after]. rewrite Hs.
    rewrite nth_error_app2 by lia. rewrite Nat.sub_diag. cbn [nth_error].
    rewrite seq_act.
    destruct (Hq c (or_introl eq_refl) s) as [Hkeep Hbound].
    rewrite Hbound.
    assert (Hnext : commands (execute c s) = (visited ++ [c]) ++ rest).
    { rewrite Hkeep, Hs, <- app_assoc. reflexivity. }
    assert (Hlen : S (List.length visited) = List.length (visited ++ [c])).
    { rewrite length_app. cbn. lia. }
    rewrite Hlen.
    rewrite (IH (visited ++ [c]) (execute c s) fuel Hnext).
    + reflexivity.
    + intros c' Hc'. apply Hq. right. exact Hc'.
    + cbn in Hfuel. lia.
Qed.

Lemma executed_queue_trace (q : list Command) (s : App) :
  executed (queue_trace q s) = q.
Proof.
  revert s. induction q as [|c q IH]; intros s; [reflexivity|].
  change (executed (queue_trace (c :: q) s))
    with (c :: executed (queue_trace q (execute c s))).
  rewrite IH. reflexivity.
Qed.

Lemma actions_queue_trace (q : list Command) (s : App) :
  actions (queue_trace q s) = map Execute q.
Proof.
  revert s. induction q as [|c q IH]; intros s; [reflexivity|].
  change (actions (queue_trace (c :: q) s))
    with (Execute c :: actions (queue_trace q (execute c s))).
  rewrite IH. reflexivity.
Qed.

Lemma execute_commands_unfold (s : App) :
  (forall c, In c (commands s) -> leaves_queue c) ->
  execute_commands s =
    (Returns tt (clear_loading (set_commands [] (after_queue (commands s) s))),
     queue_trace (commands s) s
     ++ [(ClearCommands, set_commands [] (after_queue (commands s) s));
         (ClearLoading,
          clear_loading (set_commands [] (after_queue (commands s) s)))]).
Proof.
  intros Hq. unfold execute_commands.
  erewrite seq_returns.
  2: { apply (@for_commands_queue (commands s) [] s); cbn;
       [reflexivity | exact Hq | lia]. }
  rewrite seq_act. reflexivity.
Qed.

(** Whatever the commands do, [execute_commands] comes back only with
    the queue empty and [loading] down. *)
Lemma execute_commands_clears (s final : App) (t : Trace) :
  execute_commands s = (Returns tt final, t) ->
  commands final = [] /\ loading (controller final) = false.
Proof.
  unfold execute_commands, seq, bind, act.
  destruct (for_commands _ _ _ _) as [[[] s1 | s1 | s1] t1]; cbn;
    intros H; inversion H; subst; split; reflexivity.
Qed.

(** C3, as amended: when none of the queued commands touches the queue
    (none changes the list or assigns [app.commands] another one),
    [execute_commands] runs [execute] of every queued command once and
    in the order of the queue, each on the application as the command
    before left it; then the queue is empty and the controller's
    [loading] is [False]. *)
Theorem execute_commands_in_order (self : App) :
  (forall c, In c (commands self) -> leaves_queue c) ->
  exists (final : App) (t : Trace),
    execute_commands self = (Returns tt final, t)
    /\ actions t = map Execute (commands self) ++ [ClearCommands; ClearLoading]
    /\ executed t = commands self
    /\ final = clear_loading
                 (set_commands []
                    (fold_left (fun a c => execute c a) (commands self) self))
    /\ commands final = []
    /\ loading (controller final) = false.
Proof.
  intros Hq. do 2 eexists. split; [apply execute_commands_unfold; exact Hq|].
  repeat split.
  - unfold actions. rewrite map_app.
    fold (actions (queue_trace (commands self) self)).
    rewrite actions_queue_trace. reflexivity.
  - unfold executed. rewrite flat_map_app.
    fold (executed (queue_trace (commands self) self)).
    rewrite executed_queue_trace. cbn. apply app_nil_r.
Qed.

(** *** One frame, unfolded *)

Lemma cap_frame_rate_returns (d : float) (s : App) :
  fst (cap_frame_rate d s) = Returns tt s.
Proof.
  unfold cap_frame_rate. destruct (d <? 0.16)%float; reflexivity.
Qed.

Lemma frame_unfold (env : FrameEnv) (s : App) :
  (forall c, leaves_queue c) ->
  frame env s = (Returns tt (frame_end env s), frame_trace env s).
Proof.
  intros Hq. unfold frame, poll, render.
  rewrite !seq_act.
  erewrite seq_returns.
  2: { apply execute_commands_unfold. intros c _. apply Hq. }
  rewrite seq_act.
  fold (frame_polled env s). fold (frame_end env s).
  unfold frame_trace, pacing. cbn [fst snd].
  rewrite cap_frame_rate_returns.
  rewrite <- !app_assoc. reflexivity.
Qed.

Lemma main_loop_stopped (envs : list FrameEnv) (s : App) :
  running s = false -> main_loop envs s = (Returns tt s, []).
Proof.
  intros H. destruct envs; cbn; rewrite H; reflexivity.
Qed.

Lemma main_loop_starved (s : App) :
  running s = true -> main_loop [] s = (Pending s, []).
Proof.
  intros H. cbn. rewrite H. reflexivity.
Qed.

Lemma main_loop_frame (env : FrameEnv) (rest : list FrameEnv) (s : App) :
  (forall c, leaves_queue c) ->
  running s = true ->
  main_loop (env :: rest) s =
    (fst (main_loop rest (frame_end env s)),
     frame_trace env s ++ snd (main_loop rest (frame_end env s))).
Proof.
  intros Hq H. cbn [main_loop]. rewrite H.
  apply seq_returns. apply frame_unfold. exact Hq.
Qed.

(** Induction on the frames of the loop: it is not entered, it wants a
    frame that the input does not hold, or it goes through one frame and
    around again. *)
Lemma main_loop_cases
      (P : list FrameEnv -> App -> Outcome App unit * Trace -> Prop) :
  (forall c, leaves_queue c) ->
  (forall envs s, running s = false -> P envs s (Returns tt s, [])) ->
  (forall s, running s = true -> P [] s (Pending s, [])) ->
  (forall env rest s,
      running s = true ->
      P rest (frame_end env s) (main_loop rest (frame_end env s)) ->
      P (env :: rest) s
        (fst (main_loop rest (frame_end env s)),
         frame_trace env s ++ snd (main_loop rest (frame_end env s)))) ->
  forall envs s, P envs s (main_loop envs s).
Proof.
  intros Hq Hstop Hstarve Hframe.
  induction envs as [|env rest IH]; intros s; destruct (running s) eqn:Hs.
  - rewrite (main_loop_starved _ Hs). apply Hstarve, Hs.
  - rewrite (main_loop_stopped _ _ Hs). apply Hstop, Hs.
  - rewrite (main_loop_frame _ _ _ Hq Hs). apply Hframe; [exact Hs | apply IH].
  - rewrite (main_loop_stopped _ _ Hs). apply Hstop, Hs.
Qed.

(** The pacing of a frame is one sleep or none. *)
Lemma pacing_cases (env : FrameEnv) (s : App) :
  pacing env s = [(Sleep 0.008%float, s)] \/ pacing env s = [].
Proof.
  unfold pacing, cap_frame_rate.
  destruct (_ <? _)%float; [left | right]; reflexivity.
Qed.

(** *** [run], unfolded around the loop *)


Lemma run_unfold (envs : list FrameEnv) (s : App) :
  run envs s =
    match main_loop envs (set_running true s) with
    | (Returns _ s1, t) =>
        (join_outcome (before_join s s1 t) (exited s1),
         startup_trace s ++ t ++ shutdown_trace s1)
    | (Raises s1, t) => (Raises s1, startup_trace s ++ t)
    | (Pending s1, t) => (Pending s1, startup_trace s ++ t)
    end.
Proof.
  unfold run, bind_seen, start_background_thread, notify_background_thread,
    join, join_outcome, before_join, seq, bind, act, ret,
    startup_trace, shutdown_trace.
  destruct (main_loop envs (set_running true s)) as [[[] s1 | s1 | s1] t];
    cbn; try reflexivity.
  destruct (fold_left thread_sees _ _); cbn; rewrite <- app_assoc;
    reflexivity.
Qed.


(** *** The queue between frames *)

(** Whatever the commands do, the loop over the queue does nothing but
    execute commands, and lets no exception out. *)
Lemma for_commands_executions (fuel : nat) :
  forall (i : nat) (it : option (list Command)) (s : App),
    Forall (fun e => is_execution (fst e) = true)
           (snd (for_commands fuel i it s))
    /\ (forall s1, fst (for_commands fuel i it s) <> Raises s1).
Proof.
  induction fuel as [|fuel IH]; intros i it s; cbn [for_commands].
  - split; [constructor | intros s1 H; discriminate H].
  - destruct (nth_error (iterated_list it s) i) as [c|].
    + rewrite seq_act. cbn [fst snd].
      destruct (IH (S i) (iterated_after c s it) (execute c s)) as [Ht Ho].
      split; [constructor; [reflexivity | exact Ht] | exact Ho].
    + split; [constructor | intros s1 H; discriminate H].
Qed.

(** When the loop over the queue ends, more tests of its index would
    not have changed anything. *)
Lemma for_commands_more_fuel (fuel : nat) :
  forall (i : nat) (it : option (list Command)) (s s1 : App) (t : Trace),
    for_commands fuel i it s = (Returns tt s1, t) ->
    forall more : nat,
      for_commands (fuel + more) i it s = (Returns tt s1, t).
Proof.
  induction fuel as [|fuel IH]; intros i it s s1 t H more;
    [discriminate H|].
  cbn [for_commands Nat.add] in *.
  destruct (nth_error (iterated_list it s) i) as [c|]; [|exact H].
  rewrite seq_act in *.
  destruct (for_commands fuel (S i) (iterated_after c s it) (execute c s))
    as [o t'] eqn:Hrest.
  cbn [fst snd] in H. injection H as -> <-.
  rewrite (IH _ _ _ _ _ Hrest more). reflexivity.
Qed.

Lemma queue_rule_executions (t : Trace) :
  Forall (fun e => is_execution (fst e) = true) t -> Forall queue_rule t.
Proof.
  intros H. eapply Forall_impl; [|exact H].
  intros [a x] Ha Hw. cbn [fst] in *.
  destruct a; try discriminate Ha. discriminate Hw.
Qed.

Lemma queue_rule_execute_commands (s : App) :
  Forall queue_rule (snd (execute_commands s))
  /\ (forall s1, fst (execute_commands s) <> Raises s1)
  /\ (forall s1, fst (execute_commands s) = Returns tt s1 ->
                 commands s1 = []).
Proof.
  unfold execute_commands, seq, bind, act.
  destruct (for_commands_executions
              (S (List.length (commands s)) + patience) 0 None s)
    as [Ht Ho].
  apply queue_rule_executions in Ht.
  destruct (for_commands _ _ _ _) as [[[] s1 | s1 | s1] t1];
    cbn [fst snd] in *.
  - split; [|split].
    + apply Forall_app. split; [exact Ht|].
      repeat constructor; intros _; reflexivity.
    + intros s2 H. discriminate H.
    + intros s2 H. injection H as <-. reflexivity.
  - destruct (Ho s1 eq_refl).
  - split; [exact Ht|]. split; intros s2 H; discriminate H.
Qed.

Lemma queue_rule_pacing (env : FrameEnv) (s : App) :
  commands s = [] -> Forall queue_rule (pacing env s).
Proof.
  intros H. destruct (pacing_cases env s) as [-> | ->];
    repeat constructor. intros _. exact H.
Qed.

Lemma queue_rule_frame (env : FrameEnv) (s : App) :
  commands s = [] ->
  Forall queue_rule (snd (frame env s))
  /\ (forall s1, fst (frame env s) <> Raises s1)
  /\ (forall s1, fst (frame env s) = Returns tt s1 -> commands s1 = []).
Proof.
  intros Hs. unfold frame, poll, render. rewrite !seq_act. cbn [fst snd].
  set (s2 := rendered (polled (pending_input env) s)).
  destruct (queue_rule_execute_commands s2) as (Ht & Ho & Hc).
  assert (Hhead : Forall queue_rule
                    [(ClockStart (clock_start env), s);
                     (HandleInput, polled (pending_input env) s)])
    by (repeat constructor; intros H; try discriminate H; exact Hs).
  destruct (execute_commands s2) as [[[] s3 | s3 | s3] t3] eqn:He;
    cbn [fst snd] in *.
  - specialize (Hc s3 eq_refl).
    rewrite (seq_returns _ _ _ _ _ _ He), seq_act. cbn [fst snd].
    rewrite cap_frame_rate_returns.
    split; [|split].
    + change (?a :: ?b :: ?c :: ?l) with ([a; b] ++ c :: l).
      apply Forall_app. split; [exact Hhead|].
      constructor; [intros H; discriminate H|].
      apply Forall_app. split; [exact Ht|].
      constructor; [intros _; exact Hc|].
      apply (queue_rule_pacing env s3 Hc).
    + intros s1 H. discriminate H.
    + intros s1 H. injection H as <-. exact Hc.
  - destruct (Ho s3 eq_refl).
  - rewrite (proj1 (seq_stops _ _ _ _ _ _) He). cbn [fst snd].
    split; [|split; intros s1 H; discriminate H].
    change (?a :: ?b :: ?c :: ?l) with ([a; b] ++ c :: l).
    apply Forall_app. split; [exact Hhead|].
    constructor; [intros H; discriminate H | exact Ht].
Qed.

Lemma queue_rule_main_loop (envs : list FrameEnv) :
  forall s : App,
    commands s = [] ->
    Forall queue_rule (snd (main_loop envs s))
    /\ (forall s1, fst (main_loop envs s) <> Raises s1)
    /\ (forall s1, fst (main_loop envs s) = Returns tt s1 ->
                   commands s1 = []).
Proof.
  induction envs as [|env rest IH]; intros s Hs; cbn [main_loop];
    destruct (running s).
  - split; [constructor|]. split; intros s1 H; discriminate H.
  - split; [constructor|].
    split; intros s1 H; [discriminate H | injection H as <-; exact Hs].
  - destruct (queue_rule_frame env s Hs) as (Ht & Ho & Hc).
    destruct (frame env s) as [[[] s2 | s2 | s2] t2] eqn:Hf;
      cbn [fst snd] in *.
    + rewrite (seq_returns _ _ _ _ _ _ Hf). cbn [fst snd].
      destruct (IH s2 (Hc s2 eq_refl)) as (Ht' & Ho' & Hc').
      split; [apply Forall_app; split; assumption|].
      split; assumption.
    + destruct (Ho s2 eq_refl).
    + rewrite (proj1 (seq_stops _ _ _ _ _ _) Hf). cbn [fst snd].
      split; [exact Ht|]. split; intros s1 H; discriminate H.
  - split; [constructor|].
    split; intros s1 H; [discriminate H | injection H as <-; exact Hs].
Qed.

Lemma queue_rule_run (envs : list FrameEnv) (s : App) :
  commands s = [] ->
  Forall queue_rule (snd (run envs s)).
Proof.
  intros Hs. rewrite run_unfold.
  destruct (queue_rule_main_loop envs (set_running true s) Hs)
    as (Ht & Ho & Hc).
  assert (Hstart : Forall queue_rule (startup_trace s))
    by (repeat constructor; intros _; exact Hs).
  destruct (main_loop envs (set_running true s)) as [[[] s1 | s1 | s1] t];
    cbn [fst snd] in *;
    repeat (apply Forall_app; split); try assumption.
  specialize (Hc s1 eq_refl).
  repeat constructor; intros _; exact Hc.
Qed.

Lemma App_init_queue (load : string) :
  Forall queue_rule (snd (App_init load))
  /\ commands (state_of (fst (App_init load))) = [].
Proof.
  unfold App_init. rewrite seq_act. cbn [fst snd].
  destruct (truthy load); [|split; [repeat constructor | reflexivity]].
  unfold load_from_file, try_except, seq, bind, construct_Loader.
  destruct (Loader (entities (model App_fields)) load) as [[] e | e | e];
    cbn; split; try reflexivity; repeat constructor.
Qed.

(** C4: over the whole life of an application built by [App(load)] and
    then run, through any number of frames and whatever its commands do
    (to the queue as well: work on it in place or assign another one),
    the queue is empty in every state except those right after the
    poll, the rendering and the execution of a command.  In particular
    it is empty where a frame starts (before the poll) and where the
    clock is read at its end (after [execute_commands]). *)
Theorem queue_empty_between_frames (load : string) (envs : list FrameEnv) :
  Forall queue_rule (lifetime load envs)
  /\ (forall t a, In (ClockStart t, a) (lifetime load envs) -> commands a = [])
  /\ (forall t a, In (ClockEnd t, a) (lifetime load envs) -> commands a = []).
Proof.
  assert (H : Forall queue_rule (lifetime load envs)).
  { unfold lifetime. destruct (App_init_queue load) as [Hi Hc].
    apply Forall_app. split; [exact Hi | apply queue_rule_run; assumption]. }
  split; [exact H|].
  rewrite Forall_forall in H.
  split; intros t a Hin; apply (H _ Hin); reflexivity.
Qed.

(** *** The [running] flag *)



Lemma flags_app (t1 t2 : Trace) : flags (t1 ++ t2) = flags t1 ++ flags t2.
Proof.
  apply map_app.
Qed.

Lemma running_after_queue (q : list Command) (s : App) :
  (forall c, leaves_running c) ->
  running (after_queue q s) = running s
  /\ Forall (fun b => b = running s) (flags (queue_trace q s))
  /\ Forall start_rule (queue_trace q s).
Proof.
  intros Hr. revert s.
  induction q as [|c q IH]; intros s; cbn; [repeat split; constructor|].
  destruct (IH (execute c s)) as (Ha & Hf & Hs).
  rewrite (Hr c s) in Ha, Hf.
  repeat split.
  - exact Ha.
  - constructor; [apply Hr | exact Hf].
  - constructor; [intros H; discriminate H | exact Hs].
Qed.

Lemma running_frame (env : FrameEnv) (s : App) :
  (forall c, leaves_running c) ->
  running s = true ->
  running (frame_end env s) = frame_flag env s
  /\ (exists l : list bool,
        flags (frame_trace env s) = true :: l
        /\ Forall (fun b => b = frame_flag env s) l)
  /\ Forall start_rule (frame_trace env s).
Proof.
  intros Hr Hs.
  destruct (running_after_queue (commands (frame_polled env s))
                                (frame_polled env s) Hr) as (Ha & Hf & Hst).
  assert (Hp : running (frame_polled env s) = frame_flag env s) by reflexivity.
  rewrite Hp in Ha, Hf.
  assert (He : running (frame_end env s) = frame_flag env s) by exact Ha.
  split; [exact He|]. split.
  - unfold frame_trace. rewrite !flags_app. cbn [flags map app fst snd].
    rewrite Hs. eexists. split; [reflexivity|].
    repeat constructor.
    apply Forall_app. split; [exact Hf|].
    change (running (set_commands [] ?x)) with (running x).
    rewrite Ha, He.
    repeat constructor.
    destruct (pacing_cases env (frame_end env s)) as [-> | ->];
      repeat constructor. exact He.
  - unfold frame_trace.
    repeat (apply Forall_app; split).
    + repeat constructor; intros H; try discriminate H. exact Hs.
    + exact Hst.
    + repeat constructor; intros H; discriminate H.
    + destruct (pacing_cases env (frame_end env s)) as [-> | ->];
        repeat constructor. intros H; discriminate H.
Qed.




(** *** Shutdown *)

Lemma frame_rule_queue_trace (q : list Command) (s : App) :
  Forall frame_rule (queue_trace q s).
Proof.
  revert s. induction q as [|c q IH]; intros s; cbn; constructor;
    [reflexivity | apply IH].
Qed.

Lemma frame_rule_pacing (env : FrameEnv) (s : App) :
  Forall frame_rule (pacing env s).
Proof.
  destruct (pacing_cases env s) as [-> | ->]; repeat constructor.
Qed.

Lemma frame_rule_frame (env : FrameEnv) (s : App) :
  Forall frame_rule (frame_trace env s).
Proof.
  unfold frame_trace. repeat (apply Forall_app; split).
  - repeat constructor.
  - apply frame_rule_queue_trace.
  - repeat constructor.
  - apply frame_rule_pacing.
Qed.

Lemma frame_rule_main_loop (envs : list FrameEnv) :
  (forall c, leaves_queue c) ->
  forall s : App, Forall frame_rule (snd (main_loop envs s)).
Proof.
  intros Hq. revert envs.
  apply (main_loop_cases (fun _ _ r => Forall frame_rule (snd r)) Hq).
  - intros _ s _. constructor.
  - intros s _. constructor.
  - intros env rest s _ IH. cbn [snd].
    apply Forall_app. split; [apply frame_rule_frame | exact IH].
Qed.

(** The only poll in the trace of a frame is the one of that frame. *)
Lemma poll_in_frame (env : FrameEnv) (s a : App) :
  In (HandleInput, a) (frame_trace env s) ->
  a = polled (pending_input env) s.
Proof.
  unfold frame_trace. intros H.
  repeat (apply in_app_or in H; destruct H as [H | H]).
  - cbn in H. destruct H as [H | [H | [H | []]]]; try discriminate H.
    injection H as <-. reflexivity.
  - exfalso. revert H. generalize (frame_polled env s) at 2.
    induction (commands (frame_polled env s)) as [|c q IH]; intros s0 H;
      [exact H|].
    destruct H as [H | H]; [discriminate H | exact (IH _ H)].
  - cbn in H. destruct H as [H | [H | [H | []]]]; discriminate H.
  - exfalso. destruct (pacing_cases env (frame_end env s)) as [Hp | Hp];
      rewrite Hp in H; [destruct H as [H | []]; discriminate H | exact H].
Qed.

(** Once a poll has answered [False], the loop ends. *)
Lemma main_loop_ends (envs : list FrameEnv) :
  (forall c, leaves_queue c) ->
  (forall c, leaves_running c) ->
  forall s : App,
    (exists a, In (HandleInput, a) (snd (main_loop envs s))
               /\ running a = false) ->
    exists s1 : App, fst (main_loop envs s) = Returns tt s1.
Proof.
  intros Hq Hr. revert envs.
  apply (main_loop_cases
           (fun _ _ r =>
              (exists a, In (HandleInput, a) (snd r) /\ running a = false) ->
              exists s1 : App, fst r = Returns tt s1) Hq).
  - intros _ s _ _. exists s. reflexivity.
  - intros s _ (a & [] & _).
  - intros env rest s Hs IH (a & Hin & Ha). cbn [fst snd] in *.
    apply in_app_or in Hin. destruct Hin as [Hin | Hin].
    + apply poll_in_frame in Hin. subst a.
      destruct (running_frame env s Hr Hs) as (He & _).
      unfold frame_flag in He. rewrite Ha in He.
      rewrite (main_loop_stopped rest _ He). exists (frame_end env s).
      reflexivity.
    + apply IH. exists a. split; assumption.
Qed.

(** The thread as the main thread meets it is the loop of
    [background_updates]: after one test of the flag it is blocked in the
    first wait of that loop, or out of the loop if there is none. *)
Lemma thread_runs_background_updates (flag : bool) (c : Condition) :
  thread_runs flag c =
    match waited (background_updates [flag] c) with
    | [] => Finished
    | w :: _ => Waiting w
    end.
Proof.
  destruct flag; reflexivity.
Qed.

(** The frames leave the background thread where it is. *)
Lemma thread_sees_frames (t : Trace) (st : ThreadState) :
  Forall frame_rule t -> fold_left thread_sees t st = st.
Proof.
  intros H. revert st. induction H as [|[a x] t Ha _ IH]; intros st;
    [reflexivity|].
  cbn [fold_left]. rewrite IH.
  unfold frame_rule in Ha. cbn [fst] in Ha.
  destruct a; try discriminate Ha; destruct st; reflexivity.
Qed.

Lemma Condition_eqb_eq (c d : Condition) :
  Condition_eqb c d = true <-> c = d.
Proof.
  destruct c as [m], d as [n]. cbn. rewrite Nat.eqb_eq.
  split; [intros -> | intros H; injection H as ->]; reflexivity.
Qed.

(** When [join] is called the thread has finished if it was notified on
    the condition it was started with, and is still blocked on that
    condition if not. *)
Lemma thread_at_join (s s1 : App) (frames : Trace) :
  Forall frame_rule frames ->
  running s1 = false ->
  thread_after (before_join s s1 frames) =
    if Condition_eqb (update_background (model s1))
                     (update_background (model s))
    then Finished
    else Waiting (update_background (model s)).
Proof.
  intros Hfr Hs1. unfold thread_after, before_join, startup_trace.
  rewrite !fold_left_app. cbn [fold_left thread_sees fst snd].
  change (running (set_running true s)) with true. cbn [thread_runs].
  rewrite (thread_sees_frames _ _ Hfr).
  change (running (exited s1)) with (running s1). rewrite Hs1.
  reflexivity.
Qed.

(** *** The condition of the background thread *)

Lemma evolves_same (a b : App) :
  model_numbered a ->
  model_id (model b) = model_id (model a) ->
  models_built b = models_built a ->
  evolves a b.
Proof.
  unfold evolves, model_numbered. intros H Hid Hn. rewrite Hid, Hn. lia.
Qed.












Lemma frame_rule_silent (t : Trace) :
  Forall frame_rule t -> started t = [] /\ notified t = [].
Proof.
  induction 1 as [|[a x] t Ha _ [IH1 IH2]]; [split; reflexivity|].
  unfold started, notified in *. cbn [flat_map fst]. rewrite IH1, IH2.
  unfold frame_rule in Ha. cbn [fst] in Ha.
  destruct a; try discriminate Ha; split; reflexivity.
Qed.



(** *** [load_from_file], seen as a command would use it *)

Lemma load_from_file_frame (filename : string) (s : App) :
  commands (state_of (fst (load_from_file filename s))) = commands s
  /\ running (state_of (fst (load_from_file filename s))) = running s
  /\ (model_numbered s ->
      evolves s (state_of (fst (load_from_file filename s)))).
Proof.
  unfold load_from_file, try_except, seq, bind, construct_Loader.
  unfold evolves, model_numbered.
  destruct (Loader (entities (model s)) filename) as [[] e | e | e]; cbn;
    (split; [reflexivity | split; [reflexivity | lia]]).
Qed.

(** *** What a whole run polls, executes and sleeps *)

(** A reader of traces that has nothing to read in the execution of a
    command, or in a sleep, finds nothing in a queue's trace, or in the
    pacing of a frame. *)
Lemma flat_map_queue_trace (B : Type) (f : Action * App -> list B)
      (q : list Command) (s : App) :
  (forall c a, f (Execute c, a) = []) ->
  flat_map f (queue_trace q s) = [].
Proof.
  intros Hf. revert s. induction q as [|c q IH]; intros s; [reflexivity|].
  cbn [queue_trace flat_map]. rewrite Hf, IH. reflexivity.
Qed.

Lemma flat_map_pacing (B : Type) (f : Action * App -> list B)
      (env : FrameEnv) (s : App) :
  (forall d a, f (Sleep d, a) = []) ->
  flat_map f (pacing env s) = [].
Proof.
  intros Hf. destruct (pacing_cases env s) as [-> | ->]; cbn;
    [rewrite Hf|]; reflexivity.
Qed.

(** What [run] adds around the frames holds no action of a frame. *)
Lemma flat_map_run (B : Type) (f : Action * App -> list B)
      (envs : list FrameEnv) (s : App) :
  (forall a x, is_frame_action a = false -> f (a, x) = []) ->
  flat_map f (snd (run envs s)) =
    flat_map f (snd (main_loop envs (set_running true s))).
Proof.
  intros Hf. rewrite run_unfold.
  destruct (main_loop envs (set_running true s)) as [[[] s1 | s1 | s1] t];
    cbn [snd]; unfold startup_trace, shutdown_trace;
    rewrite !flat_map_app; cbn [flat_map];
    rewrite !Hf by reflexivity; cbn [app]; rewrite ?app_nil_r; reflexivity.
Qed.

Lemma executed_frame_trace (env : FrameEnv) (s : App) :
  executed (frame_trace env s) = commands (polled (pending_input env) s).
Proof.
  unfold frame_trace, executed. rewrite !flat_map_app.
  fold (executed (queue_trace (commands (frame_polled env s))
                              (frame_polled env s))).
  rewrite executed_queue_trace.
  rewrite flat_map_pacing by reflexivity.
  cbn. rewrite app_nil_r. reflexivity.
Qed.

Lemma queued_frame_trace (env : FrameEnv) (s : App) :
  queued (frame_trace env s) = commands (polled (pending_input env) s).
Proof.
  unfold frame_trace, queued. rewrite !flat_map_app.
  rewrite flat_map_queue_trace by reflexivity.
  rewrite flat_map_pacing by reflexivity.
  cbn. rewrite !app_nil_r. reflexivity.
Qed.

Lemma answers_frame_trace (env : FrameEnv) (s : App) :
  answers (frame_trace env s) = [frame_flag env s].
Proof.
  unfold frame_trace, answers. rewrite !flat_map_app.
  rewrite flat_map_queue_trace by reflexivity.
  rewrite flat_map_pacing by reflexivity.
  reflexivity.
Qed.

Lemma slept_frame_trace (env : FrameEnv) (s : App) :
  slept (frame_trace env s) = frame_sleep env.
Proof.
  unfold frame_trace, slept. rewrite !flat_map_app.
  rewrite flat_map_queue_trace by reflexivity.
  cbn [flat_map fst app].
  unfold pacing, cap_frame_rate, frame_sleep.
  destruct (_ <? _)%float; reflexivity.
Qed.

Lemma renderings_app (t1 t2 : Trace) :
  renderings (t1 ++ t2) = renderings t1 + renderings t2.
Proof.
  unfold renderings. rewrite filter_app, length_app. reflexivity.
Qed.

Lemma renderings_frame_trace (env : FrameEnv) (s : App) :
  renderings (frame_trace env s) = 1.
Proof.
  unfold frame_trace. rewrite !renderings_app.
  assert (Hq : forall q a, renderings (queue_trace q a) = 0).
  { induction q as [|c q IH]; intros a; [reflexivity | exact (IH _)]. }
  rewrite Hq.
  destruct (pacing_cases env (frame_end env s)) as [-> | ->]; reflexivity.
Qed.

Lemma renderings_run (envs : list FrameEnv) (s : App) :
  renderings (snd (run envs s)) =
    renderings (snd (main_loop envs (set_running true s))).
Proof.
  rewrite run_unfold.
  destruct (main_loop envs (set_running true s)) as [[[] s1 | s1 | s1] t];
    cbn [snd]; rewrite !renderings_app; cbn; lia.
Qed.

(** X2: over a whole call of [run], the commands executed are exactly
    the commands the polls left in the queue: the sequence of the
    executions is the queue as the first poll left it, followed by the
    queue as the second poll left it, and so on, each in its order.  The
    commands are taken not to touch the queue. *)
Theorem run_executes_what_was_polled (envs : list FrameEnv) (s : App) :
  (forall c, leaves_queue c) ->
  executed (snd (run envs s)) = queued (snd (run envs s)).
Proof.
  intros Hq. unfold executed, queued.
  rewrite !flat_map_run
    by (intros a x Ha; destruct a; try discriminate Ha; reflexivity).
  generalize (set_running true s). revert envs.
  apply (main_loop_cases
           (fun _ _ r => flat_map _ (snd r) = flat_map _ (snd r)) Hq).
  - reflexivity.
  - reflexivity.
  - intros env rest a _ IH. cbn [snd]. rewrite !flat_map_app, IH.
    f_equal.
    exact (eq_trans (executed_frame_trace env a)
                    (eq_sym (queued_frame_trace env a))).
Qed.

Lemma answers_main_loop (envs : list FrameEnv) :
  (forall c, leaves_queue c) ->
  (forall c, leaves_running c) ->
  forall s : App,
    running s = true ->
    exists n : nat,
      n <= List.length envs
      /\ answers (snd (main_loop envs s)) =
           repeat true n
           ++ (if n <? List.length envs then [false] else [])
      /\ renderings (snd (main_loop envs s)) =
           List.length (answers (snd (main_loop envs s)))
      /\ (n < List.length envs ->
          exists s1, fst (main_loop envs s) = Returns tt s1)
      /\ (n = List.length envs ->
          exists s1, fst (main_loop envs s) = Pending s1).
Proof.
  intros Hq Hr. revert envs.
  apply (main_loop_cases
           (fun envs s r =>
              running s = true ->
              exists n : nat,
                n <= List.length envs
                /\ answers (snd r) =
                     repeat true n
                     ++ (if n <? List.length envs then [false] else [])
                /\ renderings (snd r) = List.length (answers (snd r))
                /\ (n < List.length envs ->
                    exists s1, fst r = Returns tt s1)
                /\ (n = List.length envs ->
                    exists s1, fst r = Pending s1)) Hq).
  - intros envs s Hs Hs'. rewrite Hs in Hs'. discriminate Hs'.
  - intros s _ _. exists 0. cbn.
    repeat split; [lia | | exists s; reflexivity]. intros H. lia.
  - intros env rest s Hs IH _. cbn [fst snd].
    destruct (running_frame env s Hr Hs) as (He & _).
    unfold answers in *. rewrite flat_map_app.
    fold (answers (frame_trace env s)). rewrite answers_frame_trace.
    rewrite renderings_app, renderings_frame_trace.
    destruct (frame_flag env s) eqn:Hflag.
    + destruct (IH He) as (n & Hn & Ha & Hv & Hret & Hpend).
      exists (S n). rewrite Hv, Ha. cbn [List.length].
      change (S n <? S (List.length rest)) with (n <? List.length rest).
      split; [lia|]. split; [reflexivity|]. split; [reflexivity|].
      split; intros H; [apply Hret | apply Hpend]; lia.
    + rewrite (main_loop_stopped rest _ He). cbn [fst snd].
      exists 0. cbn.
      repeat split; [lia | | intros H; discriminate H].
      intros _. exists (frame_end env s). reflexivity.
Qed.

(** X3: [run] polls the input once per frame as long as the polls
    answer [True], goes through the whole frame of the first poll that
    answers [False] (it is rendered like the others) and never polls
    again; then it gets to [join].  When no poll answers [False], [run]
    does not return and does not get to [view.exit()].  The commands are
    taken not to touch the queue or the flag. *)
Theorem run_polls_until_quit (envs : list FrameEnv) (s : App) :
  (forall c, leaves_queue c) ->
  (forall c, leaves_running c) ->
  exists n : nat,
    n <= List.length envs
    /\ answers (snd (run envs s)) =
         repeat true n ++ (if n <? List.length envs then [false] else [])
    /\ renderings (snd (run envs s)) =
         List.length (answers (snd (run envs s)))
    /\ (n < List.length envs -> In Join (actions (snd (run envs s))))
    /\ (n = List.length envs ->
        (exists a, fst (run envs s) = Pending a)
        /\ ~ In ViewExit (actions (snd (run envs s)))).
Proof.
  intros Hq Hr.
  destruct (answers_main_loop envs Hq Hr (set_running true s) eq_refl)
    as (n & Hn & Ha & Hv & Hret & Hpend).
  exists n. unfold answers in *.
  rewrite flat_map_run
    by (intros a x H; destruct a; try discriminate H; reflexivity).
  rewrite renderings_run.
  split; [exact Hn|]. split; [exact Ha|]. split; [exact Hv|].
  pose proof (frame_rule_main_loop envs Hq (set_running true s)) as Hfr.
  rewrite run_unfold. split.
  - intros H. destruct (Hret H) as (s1 & Hs1).
    destruct (main_loop envs (set_running true s)) as [o t].
    cbn [fst] in Hs1. subst o. cbn [snd]. unfold actions.
    rewrite !map_app. apply in_or_app. right. apply in_or_app. right.
    cbn. auto.
  - intros H. destruct (Hpend H) as (s1 & Hs1).
    destruct (main_loop envs (set_running true s)) as [o t].
    cbn [fst snd] in *. subst o. cbn [fst snd].
    split; [exists s1; reflexivity|].
    unfold actions. rewrite map_app. intros Hin.
    apply in_app_or in Hin. destruct Hin as [Hin | Hin].
    + cbn in Hin. destruct Hin as [Hin | [Hin | []]]; discriminate Hin.
    + apply in_map_iff in Hin. destruct Hin as ([a x] & Hax & Hin).
      cbn in Hax. subst a. rewrite Forall_forall in Hfr.
      specialize (Hfr _ Hin). discriminate Hfr.
Qed.

(** X4: the sleeps of a call of [run] are those its frames call for,
    frame after frame: one sleep of 0.008 seconds for each frame that
    was gone through and whose two clock readings differ by less than
    0.16, none for the others, and none outside the frames.  So every
    sleep is one of 0.008 seconds, and there are at most as many as
    polls.  The commands are taken not to touch the queue. *)
Theorem run_sleeps_by_the_clock (envs : list FrameEnv) (s : App) :
  (forall c, leaves_queue c) ->
  slept (snd (run envs s)) =
    flat_map frame_sleep
             (firstn (List.length (answers (snd (run envs s)))) envs)
  /\ Forall (fun d => d = 0.008%float) (slept (snd (run envs s)))
  /\ List.length (slept (snd (run envs s)))
     <= List.length (answers (snd (run envs s))).
Proof.
  intros Hq.
  assert (H : slept (snd (run envs s)) =
              flat_map frame_sleep
                (firstn (List.length (answers (snd (run envs s)))) envs)).
  { unfold slept, answers.
    rewrite !flat_map_run
      by (intros a x Ha; destruct a; try discriminate Ha; reflexivity).
    generalize (set_running true s). revert envs.
    apply (main_loop_cases
             (fun envs _ r =>
                flat_map _ (snd r) =
                flat_map frame_sleep
                  (firstn (List.length (flat_map _ (snd r))) envs)) Hq).
    - reflexivity.
    - reflexivity.
    - intros env rest a _ IH. cbn [snd]. rewrite !flat_map_app.
      fold (slept (frame_trace env a)). fold (answers (frame_trace env a)).
      rewrite slept_frame_trace, answers_frame_trace.
      cbn [app List.length firstn flat_map]. rewrite <- IH. reflexivity. }
  split; [exact H|]. rewrite H.
  generalize (List.length (answers (snd (run envs s)))). clear H.
  induction envs as [|env envs IH]; intros [|n]; cbn;
    try (split; [constructor | lia]).
  destruct (IH n) as [IH1 IH2].
  unfold frame_sleep at 1 3. destruct (_ <? _)%float; cbn.
  - split; [constructor; [reflexivity | exact IH1] | lia].
  - split; [exact IH1 | lia].
Qed.

Lemma main_loop_settles (envs : list FrameEnv) :
  (forall c, leaves_queue c) ->
  forall s s1 : App,
    fst (main_loop envs s) = Returns tt s1 ->
    running s1 = false
    /\ (running s = true ->
        commands s1 = [] /\ loading (controller s1) = false).
Proof.
  intros Hq. revert envs.
  apply (main_loop_cases
           (fun _ s r =>
              forall s1, fst r = Returns tt s1 ->
                         running s1 = false
                         /\ (running s = true ->
                             commands s1 = []
                             /\ loading (controller s1) = false)) Hq).
  - intros _ s Hs s1 H. injection H as <-.
    split; [exact Hs|]. intros Hs'. rewrite Hs in Hs'. discriminate Hs'.
  - intros s _ s1 H. discriminate H.
  - intros env rest s _ IH s1 H. cbn [fst] in H.
    destruct (IH s1 H) as [Hstop Hidle]. split; [exact Hstop|]. intros _.
    destruct (running (frame_end env s)) eqn:He; [exact (Hidle eq_refl)|].
    rewrite (main_loop_stopped rest _ He) in H. injection H as <-.
    split; reflexivity.
Qed.

(** X5: when [run] returns, the application is at rest: the flag is
    down, the queue is empty and the controller's [loading] is [False];
    and what it returns is [True].  The commands are taken not to touch
    the queue. *)
Theorem run_leaves_the_application_at_rest
        (envs : list FrameEnv) (s final : App) (v : bool) :
  (forall c, leaves_queue c) ->
  fst (run envs s) = Returns v final ->
  v = true
  /\ running final = false
  /\ commands final = []
  /\ loading (controller final) = false.
Proof.
  intros Hq. rewrite run_unfold.
  pose proof (main_loop_settles envs Hq (set_running true s)) as Hst.
  destruct (main_loop envs (set_running true s)) as [[[] s1 | s1 | s1] t];
    cbn [fst]; try (intros H; discriminate H).
  destruct (Hst s1 eq_refl) as [Hstop Hidle].
  destruct (Hidle eq_refl) as [Hc Hl].
  unfold join_outcome. destruct (thread_after _);
    intros H; try discriminate H.
  injection H as <- <-. repeat split; assumption.
Qed.

(** *** The order of the actions *)

Lemma stages_app (st : Stage) (l1 l2 : list Action) :
  stages st (l1 ++ l2) =
    match stages st l1 with
    | Some st' => stages st' l2
    | None => None
    end.
Proof.
  revert st. induction l1 as [|a l1 IH]; intros st; [reflexivity|].
  cbn [app stages]. destruct (next_stage st a); [apply IH | reflexivity].
Qed.

Lemma stages_queue (q : list Command) :
  stages Working (map Execute q) = Some Working.
Proof.
  induction q as [|c q IH]; [reflexivity | exact IH].
Qed.

Lemma stages_frame (env : FrameEnv) (s : App) (st : Stage) :
  at_loop_test st = true ->
  exists st' : Stage,
    stages st (actions (frame_trace env s)) = Some st'
    /\ at_loop_test st' = true.
Proof.
  intros Hst. unfold frame_trace, actions. rewrite !map_app.
  fold (actions (queue_trace (commands (frame_polled env s))
                             (frame_polled env s))).
  rewrite actions_queue_trace.
  assert (H3 : stages st
                 (map fst
                    [(ClockStart (clock_start env), s);
                     (HandleInput, polled (pending_input env) s);
                     (ViewUpdate, frame_polled env s)]) = Some Working)
    by (destruct st; try discriminate Hst; reflexivity).
  rewrite stages_app, H3, stages_app, stages_queue, stages_app.
  cbn [map fst stages next_stage].
  destruct (pacing_cases env (frame_end env s)) as [-> | ->].
  - exists LoopTest. split; reflexivity.
  - exists Timed. split; reflexivity.
Qed.

Lemma stages_main_loop (envs : list FrameEnv) :
  (forall c, leaves_queue c) ->
  forall (s : App) (st : Stage),
    at_loop_test st = true ->
    exists st' : Stage,
      stages st (actions (snd (main_loop envs s))) = Some st'
      /\ at_loop_test st' = true.
Proof.
  intros Hq. revert envs.
  apply (main_loop_cases
           (fun _ _ r =>
              forall st, at_loop_test st = true ->
                         exists st' : Stage,
                           stages st (actions (snd r)) = Some st'
                           /\ at_loop_test st' = true) Hq).
  - intros _ s _ st Hst. exists st. split; [reflexivity | exact Hst].
  - intros s _ st Hst. exists st. split; [reflexivity | exact Hst].
  - intros env rest s _ IH st Hst. cbn [snd].
    destruct (stages_frame env s st Hst) as (st1 & H1 & Hst1).
    destruct (IH st1 Hst1) as (st2 & H2 & Hst2).
    exists st2. unfold actions in *. rewrite map_app, stages_app, H1.
    split; assumption.
Qed.

(** X6: the actions of [run] always come in the order of the code:
    the flag is set, the thread is started, then whole frames follow one
    another, each made of the first clock reading, the poll, the
    rendering, the executions of commands, the clearing of the queue,
    the clearing of [loading], the second clock reading and at most one
    sleep; and when [run] returns, the frames were followed by
    [view.exit()], the notification and [join], so that nothing of a
    frame comes after [view.exit()].  The commands are taken not to
    touch the queue. *)
Theorem run_follows_its_order (envs : list FrameEnv) (s : App) :
  (forall c, leaves_queue c) ->
  exists st : Stage,
    stages Called (actions (snd (run envs s))) = Some st
    /\ (st = Joined \/ at_loop_test st = true)
    /\ (forall v final, fst (run envs s) = Returns v final -> st = Joined).
Proof.
  intros Hq. rewrite run_unfold.
  destruct (stages_main_loop envs Hq (set_running true s) LoopTest eq_refl)
    as (st & H & Hst).
  destruct (main_loop envs (set_running true s)) as [[[] s1 | s1 | s1] t];
    cbn [fst snd] in *; unfold actions in *; rewrite !map_app;
    cbn [map fst startup_trace shutdown_trace app stages next_stage];
    try rewrite stages_app; rewrite H.
  - exists Joined.
    destruct st; try discriminate Hst;
      (split; [reflexivity | split; [left; reflexivity | reflexivity]]).
  - exists st. split; [reflexivity|]. split; [right; exact Hst|].
    intros v final Hf. discriminate Hf.
  - exists st. split; [reflexivity|]. split; [right; exact Hst|].
    intros v final Hf. discriminate Hf.
Qed.

(** *** [execute_commands], called again *)

(** X7: whatever the commands did, also to the queue, when
    [execute_commands] has returned a second call finds nothing to do:
    it executes no command and leaves the application as it is.  A
    command is executed in the call that finds it in the queue and in no
    later one. *)
Theorem execute_commands_again (s s1 : App) (t : Trace) :
  execute_commands s = (Returns tt s1, t) ->
  execute_commands s1 =
    (Returns tt s1, [(ClearCommands, s1); (ClearLoading, s1)])
  /\ executed (snd (execute_commands s1)) = [].
Proof.
  intros H. destruct (execute_commands_clears s s1 t H) as [Hc Hl].
  assert (Hagain : execute_commands s1 =
                   (Returns tt s1, [(ClearCommands, s1); (ClearLoading, s1)])).
  { unfold execute_commands, seq, bind, act, ret. rewrite Hc. cbn.
    destruct s1 as [m v [ms l cs] r q n]. cbn in Hc, Hl. subst q l.
    reflexivity. }
  split; [exact Hagain|]. rewrite Hagain. reflexivity.
Qed.

(** *** The load path, whatever the loader does *)

(** X8: [load_from_file] lets no exception out, whatever the loader
    does, and does not come back only if the loader does not.  It
    constructs one [Loader], with the filename it was given; it leaves
    the view, the flag, the queue and the controller's [loading] alone
    and builds at most one [Model]; and when it returns it has pushed
    exactly one message, at the end of the message stack: the success
    message or the error message for that filename. *)
Theorem load_from_file_contains_failure (filename : string) (s : App) :
  (forall s1, fst (load_from_file filename s) <> Raises s1)
  /\ ((exists s1, fst (load_from_file filename s) = Pending s1)
      <-> (exists e, Loader (entities (model s)) filename = Pending e))
  /\ loaders (snd (load_from_file filename s)) = [filename]
  /\ view (state_of (fst (load_from_file filename s))) = view s
  /\ running (state_of (fst (load_from_file filename s))) = running s
  /\ commands (state_of (fst (load_from_file filename s))) = commands s
  /\ loading (controller (state_of (fst (load_from_file filename s))))
     = loading (controller s)
  /\ models_built s <= models_built (state_of (fst (load_from_file filename s)))
     <= S (models_built s)
  /\ (forall final,
        fst (load_from_file filename s) = Returns tt final ->
        exists m : Message,
          inserted (snd (load_from_file filename s)) = [m]
          /\ message_stack (controller final)
             = message_stack (controller s) ++ [m]
          /\ (m = [("Loaded from save file: " ++ filename)%string]
              \/ m = [("Error loading save file: " ++ filename)%string])).
Proof.
  unfold load_from_file, try_except, seq, bind, construct_Loader.
  destruct (Loader (entities (model s)) filename) as [[] e | e | e]; cbn.
  - split; [intros s1 H; discriminate H|].
    split; [split; intros (x & H); discriminate H|].
    repeat (split; [reflexivity || lia|]).
    intros final H. injection H as <-. eexists.
    split; [reflexivity | split; [reflexivity | left; reflexivity]].
  - split; [intros s1 H; discriminate H|].
    split; [split; intros (x & H); discriminate H|].
    repeat (split; [reflexivity || lia|]).
    intros final H. injection H as <-. eexists.
    split; [reflexivity | split; [reflexivity | right; reflexivity]].
  - split; [intros s1 H; discriminate H|].
    split; [split; intros _; eexists; reflexivity|].
    repeat (split; [reflexivity || lia|]).
    intros final H. discriminate H.
Qed.

(** *** The constructor with a file to load *)

(** X9: [App(load)] with a non-empty [load] sets the five attributes
    and then calls [load_from_file(load)] once.  It lets no exception
    out even when the file does not load; the application it leaves is
    not running, has an empty queue and the view [View()] made; and when
    it returns the model is either the first [Model], as the loader
    filled it, with the success message pushed, or a second [Model] in
    the default state, with the error message pushed. *)
Theorem App_init_with_load (load : string) :
  truthy load = true ->
  App_init load =
    (fst (load_from_file load App_fields),
     (ConstructModel 0, App_fields) :: snd (load_from_file load App_fields))
  /\ loaders (snd (App_init load)) = [load]
  /\ (forall s1, fst (App_init load) <> Raises s1)
  /\ running (state_of (fst (App_init load))) = false
  /\ commands (state_of (fst (App_init load))) = []
  /\ view (state_of (fst (App_init load))) = View_init
  /\ (forall final,
        fst (App_init load) = Returns tt final ->
        (model_id (model final) = 0
         /\ models_built final = 1
         /\ inserted (snd (App_init load))
            = [[("Loaded from save file: " ++ load)%string]])
        \/ (model final = Model_init 1
            /\ models_built final = 2
            /\ inserted (snd (App_init load))
               = [[("Error loading save file: " ++ load)%string]])).
Proof.
  intros Hload. unfold App_init. rewrite seq_act, Hload.
  split; [reflexivity|]. cbn [fst snd].
  unfold load_from_file, try_except, seq, bind, construct_Loader.
  destruct (Loader (entities (model App_fields)) load) as [[] e | e | e];
    cbn.
  - repeat (split; [reflexivity || (intros s1 H; discriminate H)|]).
    intros final H. injection H as <-. left. repeat split.
  - repeat (split; [reflexivity || (intros s1 H; discriminate H)|]).
    intros final H. injection H as <-. right. repeat split.
  - repeat (split; [reflexivity || (intros s1 H; discriminate H)|]).
    intros final H. discriminate H.
Qed.

(** *** The background thread on a schedule *)

(** The steps are those of the loop of [background_updates]: left to
    itself, a thread at the test of the loop gets into the first wait of
    that loop, or out of the loop when there is none. *)
Lemma thread_steps_background_updates (flag : bool) (c : Condition) :
  thread_steps 2 flag (AtTest c) =
    match waited (background_updates [flag] c) with
    | [] => Exited
    | w :: _ => InWait w
    end.
Proof.
  destruct flag; reflexivity.
Qed.

(** A thread that is not started, blocked or out of its loop takes no
    step of its own. *)
Lemma thread_steps_stuck (n : nat) (flag : bool) (p : ThreadPoint) :
  thread_step flag p = p -> thread_steps n flag p = p.
Proof.
  intros H. induction n as [|n IH]; [reflexivity|].
  cbn [thread_steps]. rewrite H. exact IH.
Qed.


(** With the flag down, a thread at the test of its loop leaves it, at
    the latest when the main thread waits for it. *)
Lemma thread_steps_out (n : nat) (c : Condition) :
  thread_steps 2 false (thread_steps n false (AtTest c)) = Exited.
Proof.
  destruct n as [|n]; [reflexivity|].
  cbn [thread_steps thread_step].
  rewrite (thread_steps_stuck n false Exited eq_refl). reflexivity.
Qed.

(** A thread that is past the test goes into [wait], whatever the flag
    has become. *)
Lemma thread_steps_past_test (n : nat) (flag : bool) (c : Condition) :
  thread_steps 2 flag (thread_steps n flag (BeforeWait c)) = InWait c.
Proof.
  destruct n as [|n]; [reflexivity|].
  cbn [thread_steps thread_step].
  rewrite (thread_steps_stuck n flag (InWait c) eq_refl). reflexivity.
Qed.

Lemma interleaved_app (schedule : Schedule) (t1 t2 : Trace) :
  forall (i : nat) (p : ThreadPoint),
    interleaved schedule i (t1 ++ t2) p =
      interleaved schedule (i + List.length t1) t2
                  (interleaved schedule i t1 p).
Proof.
  induction t1 as [|e t1 IH]; intros i p; cbn [app interleaved List.length].
  - rewrite Nat.add_0_r. reflexivity.
  - rewrite IH. f_equal. lia.
Qed.



(** Once started, the thread is never again not started, and it stays
    on the condition it was started with. *)
Lemma thread_steps_bound (n : nat) (flag : bool) (c : Condition)
      (p : ThreadPoint) :
  p <> Unstarted -> bound_to c p ->
  thread_steps n flag p <> Unstarted /\ bound_to c (thread_steps n flag p).
Proof.
  revert p. induction n as [|n IH]; intros p Hp Hb; [split; assumption|].
  cbn [thread_steps]. apply IH.
  - destruct p as [|c'|c'|c'|]; cbn; try destruct flag; congruence.
  - destruct p as [|c'|c'|c'|]; cbn; try destruct flag; cbn; auto.
Qed.

Lemma interleaved_bound (schedule : Schedule) (c : Condition) (t : Trace) :
  forall (i : nat) (p : ThreadPoint),
    p <> Unstarted -> bound_to c p ->
    interleaved schedule i t p <> Unstarted
    /\ bound_to c (interleaved schedule i t p).
Proof.
  induction t as [|e t IH]; intros i p Hp Hb; [split; assumption|].
  cbn [interleaved].
  assert (Hm : main_step p e <> Unstarted /\ bound_to c (main_step p e)).
  { destruct e as [a x]. unfold main_step. cbn [fst].
    destruct a; destruct p as [|c1|c1|c1|]; try (split; assumption);
      try congruence.
    destruct (Condition_eqb condition c1); split; cbn; auto; congruence. }
  destruct Hm as [Hm1 Hm2].
  destruct (thread_steps_bound (schedule i) (running (snd e)) c _ Hm1 Hm2)
    as [Hs1 Hs2].
  apply IH; assumption.
Qed.

Lemma run_scheduled_unfold (schedule : Schedule) (envs : list FrameEnv)
      (s : App) :
  run_scheduled schedule envs s =
    match main_loop envs (set_running true s) with
    | (Returns _ s1, t) =>
        (outcome_at
           (thread_steps 2 (running s1)
              (interleaved schedule 0 (before_join s s1 t) Unstarted))
           (exited s1),
         startup_trace s ++ t ++ shutdown_trace s1)
    | (Raises s1, t) => (Raises s1, startup_trace s ++ t)
    | (Pending s1, t) => (Pending s1, startup_trace s ++ t)
    end.
Proof.
  unfold run_scheduled, bind_seen, start_background_thread,
    notify_background_thread, join_scheduled, outcome_at, before_join,
    seq, bind, act, ret, startup_trace, shutdown_trace.
  destruct (main_loop envs (set_running true s)) as [[[] s1 | s1 | s1] t];
    cbn [fst snd app]; try reflexivity.
  change (running (exited s1)) with (running s1).
  destruct (thread_steps 2 _ _); cbn [fst snd app];
    rewrite <- app_assoc; reflexivity.
Qed.

(** The schedule has no part in what the main thread does. *)
Lemma run_scheduled_trace (schedule : Schedule) (envs : list FrameEnv)
      (s : App) :
  snd (run_scheduled schedule envs s) = snd (run envs s).
Proof.
  rewrite run_scheduled_unfold, run_unfold.
  destruct (main_loop envs (set_running true s)) as [[[] s1 | s1 | s1] t];
    reflexivity.
Qed.

(** A run that got to [join] went through its loop and left it with the
    flag down. *)
Lemma run_reaches_join (envs : list FrameEnv) (s : App) :
  (forall c, leaves_queue c) ->
  In Join (actions (snd (run envs s))) ->
  exists (s1 : App) (t : Trace),
    main_loop envs (set_running true s) = (Returns tt s1, t)
    /\ Forall frame_rule t
    /\ running s1 = false.
Proof.
  intros Hq. rewrite run_unfold.
  pose proof (frame_rule_main_loop envs Hq (set_running true s)) as Hfr.
  pose proof (main_loop_settles envs Hq (set_running true s)) as Hst.
  assert (Hno : forall t, Forall frame_rule t ->
                          ~ In Join (actions (startup_trace s ++ t))).
  { intros t Ht Hin. unfold actions in Hin. rewrite map_app in Hin.
    apply in_app_or in Hin. destruct Hin as [Hin | Hin].
    - cbn in Hin. destruct Hin as [Hin | [Hin | []]]; discriminate Hin.
    - apply in_map_iff in Hin. destruct Hin as ([a x] & Hax & Hin).
      cbn in Hax. subst a. rewrite Forall_forall in Ht.
      specialize (Ht _ Hin). discriminate Ht. }
  destruct (main_loop envs (set_running true s)) as [[[] s1 | s1 | s1] t];
    cbn [fst snd] in *; intros Hin.
  - exists s1, t. destruct (Hst s1 eq_refl) as [Hstop _].
    repeat split; assumption.
  - destruct (Hno t Hfr Hin).
  - destruct (Hno t Hfr Hin).
Qed.

(** Where the thread is when [join] is called, from where it was when
    the main thread notified. *)
Lemma interleaved_before_join (schedule : Schedule) (s s1 : App)
      (t : Trace) :
  interleaved schedule 0 (before_join s s1 t) Unstarted =
    thread_steps
      (schedule (List.length (startup_trace s ++ t ++ [(ViewExit, exited s1)])))
      (running s1)
      (main_step
         (interleaved schedule 0
            (startup_trace s ++ t ++ [(ViewExit, exited s1)]) Unstarted)
         (NotifyAll (update_background (model s1)), exited s1)).
Proof.
  unfold before_join.
  change [(ViewExit, exited s1);
          (NotifyAll (update_background (model s1)), exited s1)]
    with ([(ViewExit, exited s1)]
          ++ [(NotifyAll (update_background (model s1)), exited s1)]).
  rewrite !app_assoc. rewrite interleaved_app. reflexivity.
Qed.

(** After [start], the thread is at the test of its loop, on the
    condition of the model held when [run] was called. *)
Lemma interleaved_started (schedule : Schedule) (s : App) (t : Trace) :
  interleaved schedule 0 (startup_trace s ++ t) Unstarted <> Unstarted
  /\ bound_to (update_background (model s))
              (interleaved schedule 0 (startup_trace s ++ t) Unstarted).
Proof.
  unfold startup_trace. cbn [app interleaved main_step fst snd].
  rewrite (thread_steps_stuck _ _ Unstarted eq_refl).
  cbn [main_step fst snd].
  assert (H : AtTest (update_background (model s)) <> Unstarted
              /\ bound_to (update_background (model s))
                          (AtTest (update_background (model s))))
    by (split; [discriminate | reflexivity]).
  destruct H as [H1 H2].
  destruct (thread_steps_bound (schedule 1) (running (set_running true s))
                               _ _ H1 H2) as [H3 H4].
  apply interleaved_bound; assumption.
Qed.

(** X10: how [run] ends depends on where the background thread is
    when the main thread notifies, for every schedule of the thread and
    in every run that gets to [join].  [run] returns [True] when the
    thread is then blocked in [wait] on the condition notified, or has
    not yet made the test of its loop that finds the flag up (it then
    finds it down), or is out of its loop.  [run] does not return when
    the thread is past a test that found the flag up and not yet in
    [wait]: the notification finds nobody waiting and is lost; nor when
    the thread waits on another condition than the one notified.  The
    thread is on the condition of the model held when [run] was called.
    The commands are taken not to touch the queue. *)
Theorem run_ends_by_where_the_thread_is
        (schedule : Schedule) (envs : list FrameEnv) (s : App) :
  (forall c, leaves_queue c) ->
  In Join (actions (snd (run_scheduled schedule envs s))) ->
  exists (frames : Trace) (final : App) (p : ThreadPoint),
    snd (run_scheduled schedule envs s) =
      startup_trace s ++ frames
      ++ [(ViewExit, final);
          (NotifyAll (update_background (model final)), final);
          (Join, final)]
    /\ p = interleaved schedule 0
             (startup_trace s ++ frames ++ [(ViewExit, final)]) Unstarted
    /\ p <> Unstarted
    /\ bound_to (update_background (model s)) p
    /\ fst (run_scheduled schedule envs s) =
         match p with
         | InWait c =>
             if Condition_eqb (update_background (model final)) c
             then Returns true final
             else Pending final
         | BeforeWait _ => Pending final
         | _ => Returns true final
         end.
Proof.
  intros Hq Hjoin. rewrite run_scheduled_trace in Hjoin.
  destruct (run_reaches_join envs s Hq Hjoin) as (s1 & t & Hloop & Hfr & Hs1).
  rewrite run_scheduled_unfold, Hloop. cbn [fst snd].
  exists t, (exited s1). eexists.
  split; [reflexivity|]. split; [reflexivity|].
  destruct (interleaved_started schedule s (t ++ [(ViewExit, exited s1)]))
    as [Hp Hb].
  split; [exact Hp|]. split; [exact Hb|].
  rewrite interleaved_before_join, Hs1.
  change (model (exited s1)) with (model s1).
  destruct (interleaved schedule 0
              (startup_trace s ++ t ++ [(ViewExit, exited s1)]) Unstarted)
    as [|c|c|c|]; try congruence; unfold main_step; cbn [fst].
  - rewrite thread_steps_out. reflexivity.
  - rewrite thread_steps_past_test. reflexivity.
  - destruct (Condition_eqb (update_background (model s1)) c).
    + rewrite thread_steps_out. reflexivity.
    + rewrite !(thread_steps_stuck _ _ (InWait c) eq_refl). reflexivity.
  - rewrite !(thread_steps_stuck _ _ Exited eq_refl). reflexivity.
Qed.






(** With no step between the test and the notification, the thread is
    where the test left it. *)
Lemma interleaved_idle (schedule : Schedule) (c : Condition) (t : Trace) :
  forall i : nat,
    (forall k, i <= k -> schedule k = 0) ->
    interleaved schedule i t (BeforeWait c) = BeforeWait c.
Proof.
  induction t as [|[a x] t IH]; intros i Hidle; [reflexivity|].
  cbn [interleaved]. rewrite (Hidle i (le_n i)). cbn [thread_steps].
  assert (Hm : main_step (BeforeWait c) (a, x) = BeforeWait c)
    by (unfold main_step; cbn [fst]; destruct a; reflexivity).
  rewrite Hm. apply IH. intros k Hk. apply Hidle. lia.
Qed.

(** X12: the wake-up of shutdown can be lost.  When the background
    thread makes the first test of its loop right after it was started
    (one step after the second action of [run]) and gets no further step
    until the main thread has notified, [run] does not return in any run
    that gets to [join]: the notification, on whatever condition, finds
    nobody waiting, and the thread then blocks in [wait] with nobody
    left to wake it.  This needs no reassignment of [self.model].  The
    commands are taken not to touch the queue. *)
Theorem run_loses_the_wake_up
        (schedule : Schedule) (envs : list FrameEnv) (s : App) :
  (forall c, leaves_queue c) ->
  schedule 1 = 1 ->
  (forall k, 1 < k -> schedule k = 0) ->
  In Join (actions (snd (run_scheduled schedule envs s))) ->
  exists final : App,
    fst (run_scheduled schedule envs s) = Pending final
    /\ notified (snd (run_scheduled schedule envs s))
       = [update_background (model final)]
    /\ running final = false.
Proof.
  intros Hq Htest Hidle Hjoin. rewrite run_scheduled_trace in Hjoin.
  destruct (run_reaches_join envs s Hq Hjoin) as (s1 & t & Hloop & Hfr & Hs1).
  rewrite run_scheduled_unfold, Hloop. cbn [fst snd].
  exists (exited s1). split; [|split; [|exact Hs1]].
  - rewrite interleaved_before_join, Hs1.
    assert (Hp : interleaved schedule 0
                   (startup_trace s ++ t ++ [(ViewExit, exited s1)]) Unstarted
                 = BeforeWait (update_background (model s))).
    { unfold startup_trace. cbn [app interleaved main_step fst snd].
      rewrite (thread_steps_stuck _ _ Unstarted eq_refl).
      cbn [main_step fst snd]. rewrite Htest.
      change (running (set_running true s)) with true.
      cbn [thread_steps thread_step].
      apply interleaved_idle. intros k Hk. apply Hidle. lia. }
    rewrite Hp. unfold main_step. cbn [fst].
    rewrite thread_steps_past_test. reflexivity.
  - destruct (frame_rule_silent t Hfr) as [_ Hn].
    unfold notified in *. rewrite !flat_map_app, Hn. reflexivity.
Qed.

(** A thread that has not been through a test that found the flag up
    stays so as long as it takes no step while the flag is up. *)
Lemma interleaved_untested (schedule : Schedule) (t : Trace) :
  forall (i : nat) (p : ThreadPoint),
    (forall k e, nth_error t k = Some e -> running (snd e) = true ->
                 schedule (i + k) = 0) ->
    untested p = true ->
    untested (interleaved schedule i t p) = true.
Proof.
  induction t as [|[a x] t IH]; intros i p Hidle Hp; [exact Hp|].
  cbn [interleaved]. apply IH.
  - intros k e Hk He. replace (S i + k) with (i + S k) by lia.
    exact (Hidle (S k) e Hk He).
  - assert (Hm : untested (main_step p (a, x)) = true).
    { unfold main_step. cbn [fst].
      destruct a; destruct p; try discriminate Hp; reflexivity. }
    cbn [snd]. destruct (running x) eqn:Hx.
    + rewrite <- (Nat.add_0_r i), (Hidle 0 (a, x) eq_refl Hx). exact Hm.
    + clear Hidle IH. revert Hm. generalize (main_step p (a, x)).
      induction (schedule i) as [|n IHn]; intros q Hq; [exact Hq|].
      cbn [thread_steps]. apply IHn.
      destruct q; try discriminate Hq; reflexivity.
Qed.

(** X13: a background thread that gets no step while the flag is up
    never waits: when it makes the first test of its loop the flag is
    down, and it leaves the loop.  [run] then returns [True] in every
    run that gets to [join], whatever condition the main thread notified
    and whatever became of [self.model].  The commands are taken not to
    touch the queue. *)
Theorem run_with_a_late_thread
        (schedule : Schedule) (envs : list FrameEnv) (s : App) :
  (forall c, leaves_queue c) ->
  (forall k e, nth_error (snd (run_scheduled schedule envs s)) k = Some e ->
               running (snd e) = true -> schedule k = 0) ->
  In Join (actions (snd (run_scheduled schedule envs s))) ->
  exists final : App,
    fst (run_scheduled schedule envs s) = Returns true final
    /\ running final = false.
Proof.
  intros Hq Hlate Hjoin. rewrite run_scheduled_trace in Hjoin.
  destruct (run_reaches_join envs s Hq Hjoin) as (s1 & t & Hloop & Hfr & Hs1).
  rewrite run_scheduled_unfold, Hloop in *. cbn [fst snd] in *.
  exists (exited s1). split; [|exact Hs1].
  assert (Hu : untested (interleaved schedule 0 (before_join s s1 t) Unstarted)
               = true).
  { apply interleaved_untested; [|reflexivity].
    intros k e Hk He. apply (Hlate k e); [|exact He].
    unfold before_join in Hk. unfold shutdown_trace.
    change [(ViewExit, exited s1);
            (NotifyAll (update_background (model s1)), exited s1);
            (Join, exited s1)]
      with ([(ViewExit, exited s1);
             (NotifyAll (update_background (model s1)), exited s1)]
            ++ [(Join, exited s1)]).
    rewrite !app_assoc. rewrite nth_error_app1.
    - rewrite <- !app_assoc. exact Hk.
    - apply nth_error_Some. rewrite <- !app_assoc, Hk. discriminate. }
  destruct (interleaved_started schedule s
              (t ++ [(ViewExit, exited s1);
                     (NotifyAll (update_background (model s1)), exited s1)]))
    as [Hp _].
  fold (before_join s s1 t) in Hp.
  rewrite Hs1.
  destruct (interleaved schedule 0 (before_join s s1 t) Unstarted)
    as [|c|c|c|]; try discriminate Hu; try congruence; reflexivity.
Qed.

(** *** When [run] returns *)

Lemma model_kept_queue (q : list Command) :
  forall s : App,
    (forall c, In c q -> keeps_model c) ->
    model_id (model (after_queue q s)) = model_id (model s).
Proof.
  induction q as [|c q IH]; intros s Hk; [reflexivity|].
  change (after_queue (c :: q) s) with (after_queue q (execute c s)).
  rewrite IH.
  - apply Hk. left. reflexivity.
  - intros c' Hc'. apply Hk. right. exact Hc'.
Qed.

Lemma model_kept_main_loop (envs : list FrameEnv) :
  (forall c, leaves_queue c) ->
  forall s : App,
    (forall c, In c (executed (snd (main_loop envs s))) -> keeps_model c) ->
    model_id (model (state_of (fst (main_loop envs s)))) = model_id (model s).
Proof.
  intros Hq. revert envs.
  apply (main_loop_cases
           (fun _ s r =>
              (forall c, In c (executed (snd r)) -> keeps_model c) ->
              model_id (model (state_of (fst r))) = model_id (model s)) Hq).
  - reflexivity.
  - reflexivity.
  - intros env rest s _ IH Hk. cbn [fst snd] in *.
    unfold executed in Hk. rewrite flat_map_app in Hk.
    fold (executed (frame_trace env s)) in Hk.
    rewrite executed_frame_trace in Hk.
    rewrite IH by (intros c Hc; apply Hk, in_or_app; right; exact Hc).
    unfold frame_end.
    change (model (clear_loading (set_commands [] ?x))) with (model x).
    rewrite model_kept_queue; [reflexivity|].
    intros c Hc. apply Hk, in_or_app. left. exact Hc.
Qed.

(** X15: [run] returns [True] as soon as a poll has answered [False],
    provided none of the commands it executed assigned [self.model]: the
    model is then the object it was when [run] was called, the
    notification goes to the condition the background thread waits on,
    and [join] comes back.  What the application went through before
    [run], a failed load in the constructor included, does not matter.
    The thread is the one that runs as soon as it can, and the commands
    are taken not to touch the queue or the flag. *)
Theorem run_returns_when_commands_keep_the_model
        (envs : list FrameEnv) (s : App) :
  (forall c, leaves_queue c) ->
  (forall c, leaves_running c) ->
  (forall c, In c (executed (snd (run envs s))) -> keeps_model c) ->
  (exists a, In (HandleInput, a) (snd (run envs s)) /\ running a = false) ->
  exists final : App,
    fst (run envs s) = Returns true final
    /\ model_id (model final) = model_id (model s)
    /\ notified (snd (run envs s)) = started (snd (run envs s)).
Proof.
  intros Hq Hr Hk (a & Hin & Ha).
  unfold executed in Hk.
  rewrite flat_map_run in Hk
    by (intros b x Hb; destruct b; try discriminate Hb; reflexivity).
  pose proof (model_kept_main_loop envs Hq (set_running true s) Hk) as Hm.
  rewrite run_unfold in *.
  pose proof (frame_rule_main_loop envs Hq (set_running true s)) as Hfr.
  pose proof (main_loop_ends envs Hq Hr (set_running true s)) as Hend.
  pose proof (main_loop_settles envs Hq (set_running true s)) as Hst.
  destruct (main_loop envs (set_running true s)) as [o t].
  cbn [fst snd] in *.
  assert (Ho : exists s1, o = Returns tt s1).
  { apply Hend. exists a. split; [|exact Ha].
    destruct o as [[] s1 | s1 | s1]; cbn [snd] in Hin;
      apply in_app_or in Hin; destruct Hin as [Hin | Hin];
      try (cbn in Hin; destruct Hin as [Hin | [Hin | []]]; discriminate Hin);
      try exact Hin.
    apply in_app_or in Hin. destruct Hin as [Hin | Hin]; [exact Hin|].
    cbn in Hin. destruct Hin as [Hin | [Hin | [Hin | []]]]; discriminate Hin. }
  destruct Ho as (s1 & ->). cbn [fst snd state_of] in *.
  destruct (Hst s1 eq_refl) as [Hs1 _].
  change (model (set_running true s)) with (model s) in Hm.
  exists (exited s1). split; [|split; [exact Hm|]].
  - unfold join_outcome. rewrite (thread_at_join s s1 t Hfr Hs1).
    unfold update_background. rewrite Hm. cbn [Condition_eqb].
    rewrite Nat.eqb_refl. reflexivity.
  - destruct (frame_rule_silent t Hfr) as [Hs0 Hn0].
    unfold started, notified in *. rewrite !flat_map_app, Hs0, Hn0.
    cbn. unfold update_background. rewrite Hm. reflexivity.
Qed.


(** *** Frame pacing, every duration *)

Lemma SFeqb_refl_false (x y : spec_float) :
  SFeqb x x = false -> SFltb x y = false.
Proof.
  unfold SFeqb, SFltb.
  destruct x as [ [|] | [|] | | [|] m e ]; cbn; try congruence;
    rewrite Z.compare_refl, Pos.compare_cont_refl; cbn; congruence.
Qed.

Lemma SFltb_false_cases (x y : spec_float) :
  SFltb x y = false ->
  SFleb y x = true \/ SFeqb x x = false \/ SFeqb y y = false.
Proof.
  unfold SFleb, SFltb, SFeqb.
  destruct x as [ [|] | [|] | | [|] m1 e1 ], y as [ [|] | [|] | | [|] m2 e2 ];
    cbn; auto; try congruence;
    rewrite (Z.compare_antisym e1 e2), (compare_cont_flip m1 m2);
    destruct (e1 ?= e2)%Z; cbn; auto; try congruence;
    destruct (Pos.compare_cont Eq m1 m2); cbn; auto; congruence.
Qed.

(** A duration below zero is below the threshold. *)
Lemma ltb_zero_threshold (d : float) :
  (d <? 0)%float = true -> (d <? 0.16)%float = true.
Proof.
  rewrite !ltb_spec.
  replace (Prim2SF 0) with (S754_zero false) by (vm_compute; reflexivity).
  replace (Prim2SF 0.16)
    with (S754_finite false 5764607523034235%positive (-55)%Z)
    by (vm_compute; reflexivity).
  destruct (Prim2SF d) as [ [|] | [|] | | [|] m e ];
    unfold SFltb, SFcompare; intros H; first [discriminate H | reflexivity].
Qed.

(** X14: [cap_frame_rate] sleeps exactly for the durations below 0.16
    and for no other: not for 0.16 and above, and not for a duration
    that is not a number, which compares below nothing.  These three
    cases are all there are.  A duration below zero, as a clock that was
    set back between the two readings of a frame gives, is followed by
    the sleep. *)
Theorem cap_frame_rate_every_duration (d : float) (s : App) :
  (slept (snd (cap_frame_rate d s)) = [0.008%float]
   <-> (d <? 0.16)%float = true)
  /\ (slept (snd (cap_frame_rate d s)) = []
      <-> (0.16 <=? d)%float = true \/ is_nan d = true)
  /\ ((d <? 0.16)%float = true
      \/ (0.16 <=? d)%float = true
      \/ is_nan d = true)
  /\ ((d <? 0)%float = true ->
      slept (snd (cap_frame_rate d s)) = [0.008%float]).
Proof.
  assert (Hcases : (d <? 0.16)%float = false ->
                   (0.16 <=? d)%float = true \/ is_nan d = true).
  { intros H. rewrite ltb_spec in H.
    destruct (SFltb_false_cases _ _ H) as [Hle | [Hnan | Hnan]].
    - left. rewrite leb_spec. exact Hle.
    - right. unfold is_nan. rewrite eqb_spec, Hnan. reflexivity.
    - rewrite <- eqb_spec in Hnan. discriminate Hnan. }
  assert (Hback : (0.16 <=? d)%float = true \/ is_nan d = true ->
                  (d <? 0.16)%float = false).
  { intros [Hle | Hnan]; [exact (leb_not_ltb _ _ Hle)|].
    unfold is_nan in Hnan. apply negb_true_iff in Hnan.
    rewrite eqb_spec in Hnan. rewrite ltb_spec.
    exact (SFeqb_refl_false _ _ Hnan). }
  pose proof (ltb_zero_threshold d) as Hneg.
  unfold cap_frame_rate.
  destruct (d <? 0.16)%float eqn:Hlt; cbn.
  - split; [split; reflexivity|].
    split; [|split; [left; reflexivity | intros _; reflexivity]].
    split; [intros H; discriminate H|].
    intros H. specialize (Hback H). discriminate Hback.
  - split; [split; intros H; discriminate H|].
    split; [|split; [right; exact (Hcases eq_refl)|]].
    + split; [intros _; exact (Hcases eq_refl) | reflexivity].
    + intros H. specialize (Hneg H). discriminate Hneg.
Qed.

End Properties.

(** When [execute_commands] returns, it returns the same with any
    greater patience. *)
Lemma execute_commands_more_patience
      {T : Types} {W : Collaborators} {K : Commands}
      (less greater : Patience) (s s1 : App) (t : Trace) :
  @patience less <= @patience greater ->
  execute_commands (Pt := less) s = (Returns tt s1, t) ->
  execute_commands (Pt := greater) s = (Returns tt s1, t).
Proof.
  intros Hle. unfold execute_commands, seq, bind.
  destruct (for_commands (S (List.length (commands s)) + @patience less)
                         0 None s)
    as [[[] s2 | s2 | s2] t2] eqn:Hloop; try (intros H; discriminate H).
  replace (S (List.length (commands s)) + @patience greater)
    with (S (List.length (commands s)) + @patience less
          + (@patience greater - @patience less)) by lia.
  rewrite (for_commands_more_fuel _ _ _ _ _ _ Hloop). tauto.
Qed.

(** ** The theorems at work on the concrete sketcher *)

Lemma sketch_leaves_queue (c : SketchCommand) : leaves_queue c.
Proof.
  intros a. split; [|reflexivity].
  destruct c as [n | f]; [reflexivity|].
  apply (load_from_file_frame f a).
Qed.

Lemma sketch_leaves_running (c : SketchCommand) : leaves_running c.
Proof.
  intros a. destruct c as [n | f]; [reflexivity|].
  apply (load_from_file_frame f a).
Qed.

Lemma sketch_builds_fresh (c : SketchCommand) : builds_fresh c.
Proof.
  intros a Ha. destruct c as [n | f].
  - apply evolves_same; [exact Ha | reflexivity | reflexivity].
  - apply (load_from_file_frame f a). exact Ha.
Qed.

(** Loading "bad.sav": one error message, and model number 1 in the
    default state in place of the torn model number 0. *)
Lemma load_from_file_failure_witness :
  exists t,
    load_from_file "bad.sav" sketch_new =
      (Returns tt
         (mkApp (mkModel 1 [])
                0
                (mkController [["Error loading save file: bad.sav"%string]]
                              false tt)
                false [] 2),
       t)
    /\ loaders t = ["bad.sav"%string]
    /\ inserted t = [["Error loading save file: bad.sav"%string]]
    /\ (model_numbered sketch_new -> 1 <> 0).
Proof.
  exact (load_from_file_failure "bad.sav" sketch_new ["torn"%string] eq_refl).
Defined.

(** Loading "plan.sav": one success message, and model number 0 still,
    now holding the wall. *)
Lemma load_from_file_success_witness :
  exists t,
    load_from_file "plan.sav" sketch_new =
      (Returns tt
         (mkApp (mkModel 0 ["wall"%string])
                0
                (mkController [["Loaded from save file: plan.sav"%string]]
                              false tt)
                false [] 1),
       t)
    /\ loaders t = ["plan.sav"%string]
    /\ inserted t = [["Loaded from save file: plan.sav"%string]].
Proof.
  exact (load_from_file_success "plan.sav" sketch_new ["wall"%string] eq_refl).
Defined.

(** A queue of three commands is worked through in its order. *)
Lemma execute_commands_in_order_witness :
  exists final t,
    execute_commands sketch_queued = (Returns tt final, t)
    /\ actions t =
         [Execute (AddEntity "door"); Execute (LoadFile "bad.sav");
          Execute (AddEntity "window"); ClearCommands; ClearLoading]
    /\ executed t =
         [AddEntity "door"; LoadFile "bad.sav"; AddEntity "window"]
    /\ final =
         clear_loading
           (set_commands []
              (sketch_execute (AddEntity "window")
                 (sketch_execute (LoadFile "bad.sav")
                    (sketch_execute (AddEntity "door") sketch_queued))))
    /\ commands final = []
    /\ loading (controller final) = false.
Proof.
  exact (execute_commands_in_order sketch_queued
           (fun c _ => sketch_leaves_queue c)).
Defined.


(** A frame of 10 ms is followed by the sleep, one of 200 ms is not. *)
Lemma cap_frame_rate_threshold_witness :
  cap_frame_rate 0.01%float sketch_new
    = (Returns tt sketch_new, [(Sleep 0.008%float, sketch_new)])
  /\ cap_frame_rate 0.2%float sketch_new = (Returns tt sketch_new, []).
Proof.
  split.
  - exact (proj1 (proj1 (cap_frame_rate_threshold 0.01%float sketch_new)
                        eq_refl)).
  - exact (proj1 (proj2 (cap_frame_rate_threshold 0.2%float sketch_new)
                        eq_refl)).
Defined.

(** Two frames, the second one polling [Quit], and no model built in
    between: [run] returns [True]. *)
Lemma run_returns_when_model_kept :
  fst (run [quick (Key (AddEntity "door")); quick Quit] sketch_new) =
    Returns true
      (mkApp (mkModel 0 ["door"%string]) 2 (mkController [] false tt)
             false [] 1).
Proof.
  vm_compute. reflexivity.
Qed.

(** C8 fails on the code: in the run of [sketch_reload] the first
    frame executes a command whose [load_from_file] fails, so
    [self.model] becomes model number 1, and the second frame polls
    [Quit].  The main thread then does what C8 says, in its order, but
    the notification goes to the condition of model number 1 while the
    background thread is blocked on the condition of model number 0, the
    one it was started with: [join] does not come back and [run] does not
    return. *)
Lemma run_hangs_after_failed_load :
  actions (snd (run sketch_reload sketch_new)) =
    [SetRunning; ThreadStart (ConditionOf 0);
     ClockStart 0.25%float; HandleInput; ViewUpdate;
     Execute (LoadFile "bad.sav"); ClearCommands; ClearLoading;
     ClockEnd 0.254%float; Sleep 0.008%float;
     ClockStart 0.25%float; HandleInput; ViewUpdate;
     ClearCommands; ClearLoading;
     ClockEnd 0.254%float; Sleep 0.008%float;
     ViewExit; NotifyAll (ConditionOf 1); Join]
  /\ thread_after (removelast (snd (run sketch_reload sketch_new)))
     = Waiting (ConditionOf 0)
  /\ fst (run sketch_reload sketch_new)
     = Pending (state_of (fst (run sketch_reload sketch_new))).
Proof.
  split; [|split]; vm_compute; reflexivity.
Qed.


(** In figures: model number 1 is held at shutdown, so the condition
    notified is not the one the thread waits on. *)
Lemma sketch_reload_in_figures :
  started (snd (run sketch_reload sketch_new)) = [ConditionOf 0]
  /\ notified (snd (run sketch_reload sketch_new)) = [ConditionOf 1]
  /\ waited (background_updates [true; false] (ConditionOf 0))
     = [ConditionOf 0].
Proof.
  vm_compute. repeat split.
Qed.

(** *** More of the loop, on the concrete sketcher *)

(** The session in figures: three polls, the third one answering
    [False]; three renderings; the door executed once; a sleep after the
    two quick frames and none after the slow one; the fourth frame of
    the input is never started. *)
Lemma sketch_session_in_figures :
  answers (snd (run sketch_session sketch_new)) = [true; true; false]
  /\ renderings (snd (run sketch_session sketch_new)) = 3
  /\ executed (snd (run sketch_session sketch_new)) = [AddEntity "door"]
  /\ slept (snd (run sketch_session sketch_new)) = [0.008; 0.008]%float
  /\ List.length (snd (run sketch_session sketch_new)) = 26.
Proof.
  vm_compute. repeat split.
Qed.

Lemma run_executes_what_was_polled_witness :
  executed (snd (run sketch_session sketch_new)) =
    queued (snd (run sketch_session sketch_new)).
Proof.
  exact (run_executes_what_was_polled sketch_session sketch_new
           sketch_leaves_queue).
Defined.

Lemma run_polls_until_quit_witness :
  exists n : nat,
    n <= List.length sketch_session
    /\ answers (snd (run sketch_session sketch_new)) =
         repeat true n
         ++ (if n <? List.length sketch_session then [false] else [])
    /\ renderings (snd (run sketch_session sketch_new)) =
         List.length (answers (snd (run sketch_session sketch_new)))
    /\ (n < List.length sketch_session ->
        In Join (actions (snd (run sketch_session sketch_new))))
    /\ (n = List.length sketch_session ->
        (exists a, fst (run sketch_session sketch_new) = Pending a)
        /\ ~ In ViewExit (actions (snd (run sketch_session sketch_new)))).
Proof.
  exact (run_polls_until_quit sketch_session sketch_new
           sketch_leaves_queue sketch_leaves_running).
Defined.

Lemma run_sleeps_by_the_clock_witness :
  slept (snd (run sketch_session sketch_new)) =
    flat_map frame_sleep
      (firstn (List.length (answers (snd (run sketch_session sketch_new))))
              sketch_session)
  /\ Forall (fun d => d = 0.008%float)
            (slept (snd (run sketch_session sketch_new)))
  /\ List.length (slept (snd (run sketch_session sketch_new)))
     <= List.length (answers (snd (run sketch_session sketch_new))).
Proof.
  exact (run_sleeps_by_the_clock sketch_session sketch_new
           sketch_leaves_queue).
Defined.

(** The session returns [True] and leaves the application at rest. *)
Lemma run_leaves_the_application_at_rest_witness :
  true = true
  /\ running (state_of (fst (run sketch_session sketch_new))) = false
  /\ commands (state_of (fst (run sketch_session sketch_new))) = []
  /\ loading (controller (state_of (fst (run sketch_session sketch_new))))
     = false.
Proof.
  assert (H : fst (run sketch_session sketch_new) =
              Returns true (state_of (fst (run sketch_session sketch_new))))
    by (vm_compute; reflexivity).
  exact (run_leaves_the_application_at_rest sketch_session sketch_new
           (state_of (fst (run sketch_session sketch_new))) true
           sketch_leaves_queue H).
Defined.

Lemma run_follows_its_order_witness :
  exists st : Stage,
    stages Called (actions (snd (run sketch_session sketch_new))) = Some st
    /\ (st = Joined \/ at_loop_test st = true)
    /\ (forall v final,
          fst (run sketch_session sketch_new) = Returns v final ->
          st = Joined).
Proof.
  exact (run_follows_its_order sketch_session sketch_new sketch_leaves_queue).
Defined.

(** Loading "bad.sav" returns and pushes its one message. *)
Lemma load_from_file_contains_failure_witness :
  exists m : Message,
    inserted (snd (load_from_file "bad.sav" sketch_new)) = [m]
    /\ message_stack
         (controller (state_of (fst (load_from_file "bad.sav" sketch_new))))
       = message_stack (controller sketch_new) ++ [m]
    /\ (m = ["Loaded from save file: bad.sav"%string]
        \/ m = ["Error loading save file: bad.sav"%string]).
Proof.
  destruct (load_from_file_contains_failure "bad.sav" sketch_new)
    as (_ & _ & _ & _ & _ & _ & _ & _ & H).
  exact (H (state_of (fst (load_from_file "bad.sav" sketch_new))) eq_refl).
Defined.

(** [App("bad.sav")]: the second model, in the default state, and the
    error message. *)
Lemma App_init_with_load_witness :
  App_init "bad.sav" =
    (fst (load_from_file "bad.sav" App_fields),
     (ConstructModel 0, App_fields)
     :: snd (load_from_file "bad.sav" App_fields))
  /\ loaders (snd (App_init "bad.sav")) = ["bad.sav"%string]
  /\ (forall s1, fst (App_init "bad.sav") <> Raises s1)
  /\ running (state_of (fst (App_init "bad.sav"))) = false
  /\ commands (state_of (fst (App_init "bad.sav"))) = []
  /\ view (state_of (fst (App_init "bad.sav"))) = View_init
  /\ (forall final,
        fst (App_init "bad.sav") = Returns tt final ->
        (model_id (model final) = 0
         /\ models_built final = 1
         /\ inserted (snd (App_init "bad.sav"))
            = [["Loaded from save file: bad.sav"%string]])
        \/ (model final = Model_init 1
            /\ models_built final = 2
            /\ inserted (snd (App_init "bad.sav"))
               = [["Error loading save file: bad.sav"%string]])).
Proof.
  exact (App_init_with_load "bad.sav" eq_refl).
Defined.

(** *** The background thread on a schedule, on the concrete sketcher *)

Lemma sketch_door_joins (schedule : Schedule) :
  In Join (actions (snd (run_scheduled schedule sketch_door sketch_new))).
Proof.
  rewrite run_scheduled_trace. vm_compute.
  repeat (first [left; reflexivity | right]).
Qed.

Lemma sketch_reload_joins (schedule : Schedule) :
  In Join (actions (snd (run_scheduled schedule sketch_reload sketch_new))).
Proof.
  rewrite run_scheduled_trace. vm_compute.
  repeat (first [left; reflexivity | right]).
Qed.

Lemma tested_only_idle (k : nat) : 1 < k -> tested_only k = 0.
Proof.
  intros Hk. unfold tested_only.
  destruct (Nat.eqb_spec k 1) as [-> | _]; [lia | reflexivity].
Qed.


(** The run of [sketch_door] with the thread that only got to test the
    flag. *)
Lemma run_ends_by_where_the_thread_is_witness :
  exists (frames : Trace) (final : App) (p : ThreadPoint),
    snd (run_scheduled tested_only sketch_door sketch_new) =
      startup_trace sketch_new ++ frames
      ++ [(ViewExit, final);
          (NotifyAll (update_background (model final)), final);
          (Join, final)]
    /\ p = interleaved tested_only 0
             (startup_trace sketch_new ++ frames ++ [(ViewExit, final)])
             Unstarted
    /\ p <> Unstarted
    /\ bound_to (update_background (model sketch_new)) p
    /\ fst (run_scheduled tested_only sketch_door sketch_new) =
         match p with
         | InWait c =>
             if Condition_eqb (update_background (model final)) c
             then Returns true final
             else Pending final
         | BeforeWait _ => Pending final
         | _ => Returns true final
         end.
Proof.
  exact (run_ends_by_where_the_thread_is tested_only sketch_door sketch_new
           sketch_leaves_queue (sketch_door_joins tested_only)).
Defined.


(** The model is never reassigned in the run of [sketch_door], the
    notification goes to the condition the thread was started with, and
    still [run] does not return. *)
Lemma run_loses_the_wake_up_witness :
  exists final : App,
    fst (run_scheduled tested_only sketch_door sketch_new) = Pending final
    /\ notified (snd (run_scheduled tested_only sketch_door sketch_new))
       = [update_background (model final)]
    /\ running final = false.
Proof.
  exact (run_loses_the_wake_up tested_only sketch_door sketch_new
           sketch_leaves_queue eq_refl tested_only_idle
           (sketch_door_joins tested_only)).
Defined.

(** The same run and schedule, computed: the condition notified is the
    one the thread was started with, and the thread is left in [wait]. *)
Lemma sketch_door_wake_up_lost :
  started (snd (run_scheduled tested_only sketch_door sketch_new))
    = [ConditionOf 0]
  /\ notified (snd (run_scheduled tested_only sketch_door sketch_new))
     = [ConditionOf 0]
  /\ thread_steps 2 false
       (interleaved tested_only 0
          (removelast (snd (run_scheduled tested_only sketch_door sketch_new)))
          Unstarted)
     = InWait (ConditionOf 0)
  /\ fst (run sketch_door sketch_new)
     = Returns true (state_of (fst (run sketch_door sketch_new))).
Proof.
  vm_compute. repeat split.
Qed.

(** After the failed load of [sketch_reload], with a thread that was
    held back until [join]: [run] returns. *)
Lemma run_with_a_late_thread_witness :
  exists final : App,
    fst (run_scheduled held_back sketch_reload sketch_new)
      = Returns true final
    /\ running final = false.
Proof.
  exact (run_with_a_late_thread held_back sketch_reload sketch_new
           sketch_leaves_queue (fun _ _ _ _ => eq_refl)
           (sketch_reload_joins held_back)).
Defined.

(** *** When [run] returns, on the concrete sketcher *)

(** From the application that [App("bad.sav")] leaves, whose model is
    the second one, the run of [sketch_door] executes one command, which
    adds an entity to the model it finds. *)
Lemma sketch_door_keeps_model (c : SketchCommand) :
  In c (executed (snd (run sketch_door (state_of (fst (App_init "bad.sav"))))))
  -> keeps_model c.
Proof.
  assert (E : executed
                (snd (run sketch_door (state_of (fst (App_init "bad.sav")))))
              = [AddEntity "door"])
    by (vm_compute; reflexivity).
  rewrite E. intros [<- | []] a. reflexivity.
Qed.

Lemma run_returns_when_commands_keep_the_model_witness :
  exists final : App,
    fst (run sketch_door (state_of (fst (App_init "bad.sav"))))
      = Returns true final
    /\ model_id (model final)
       = model_id (model (state_of (fst (App_init "bad.sav"))))
    /\ notified (snd (run sketch_door (state_of (fst (App_init "bad.sav")))))
       = started (snd (run sketch_door (state_of (fst (App_init "bad.sav"))))).
Proof.
  assert (Hquit : exists a,
             In (HandleInput, a)
                (snd (run sketch_door (state_of (fst (App_init "bad.sav")))))
             /\ running a = false).
  { exists (snd (nth 11 (snd (run sketch_door
                                   (state_of (fst (App_init "bad.sav")))))
                     (Join, sketch_new))).
    split; vm_compute; [do 11 right; left|]; reflexivity. }
  exact (run_returns_when_commands_keep_the_model
           sketch_door (state_of (fst (App_init "bad.sav")))
           sketch_leaves_queue sketch_leaves_running
           sketch_door_keeps_model Hquit).
Defined.

(** A clock set back by half a second between the two readings. *)
Lemma cap_frame_rate_every_duration_witness :
  slept (snd (cap_frame_rate (-0.5)%float sketch_new)) = [0.008%float].
Proof.
  exact (proj2 (proj2 (proj2
           (cap_frame_rate_every_duration (-0.5)%float sketch_new)))
           eq_refl).
Defined.

(** ** The scripted application at work *)

Section ScriptedRuns.

#[local] Existing Instance script_types.
#[local] Existing Instance script_collaborators.
#[local] Existing Instance script_commands.

(** The loop of [execute_commands] goes through the list object it
    started on, as that list is at each test of the index.  After
    [pop(0)] the command that moved to the front is never executed; a
    command appended during the loop is executed in the same call; after
    [clear()] the loop ends; after [app.commands = []] it goes on with
    what the list it started on holds.  Every time the call returns with
    the queue empty. *)
Lemma execute_commands_follows_the_list :
  executed (snd (execute_commands script_popped)) = [PopFirst; Mark "c"]
  /\ executed (snd (execute_commands script_appended))
     = [Append "late"; Mark "b"; Mark "late"]
  /\ executed (snd (execute_commands script_cleared)) = [Clear]
  /\ executed (snd (execute_commands script_rebound)) = [Rebind; Mark "b"]
  /\ commands (state_of (fst (execute_commands script_rebound))) = []
  /\ message_stack
       (controller (state_of (fst (execute_commands script_appended))))
     = [["b"%string]; ["late"%string]].
Proof.
  vm_compute. repeat split.
Qed.

(** C3 fails as stated: the queue holds [PopFirst], [Mark "b"] and
    [Mark "c"]; [PopFirst] takes the first command off the list the loop
    is going through, so the loop, whose index is now 1, goes on with
    [Mark "c"]: [Mark "b"] was queued and is never executed, and its
    message is never pushed. *)
Lemma execute_commands_skips_after_a_pop :
  commands script_popped = [PopFirst; Mark "b"; Mark "c"]
  /\ executed (snd (execute_commands script_popped)) = [PopFirst; Mark "c"]
  /\ fst (execute_commands script_popped)
     = Returns tt (state_of (fst (execute_commands script_popped)))
  /\ message_stack
       (controller (state_of (fst (execute_commands script_popped))))
     = [["c"%string]]
  /\ commands (state_of (fst (execute_commands script_popped))) = [].
Proof.
  vm_compute. repeat split.
Qed.

(** Two frames whose commands append to the queue, assign another one
    and pop it, after [App()]. *)
Lemma queue_empty_between_frames_witness :
  Forall queue_rule (lifetime "" script_busy)
  /\ (forall t a,
        In (ClockStart t, a) (lifetime "" script_busy) -> commands a = [])
  /\ (forall t a,
        In (ClockEnd t, a) (lifetime "" script_busy) -> commands a = []).
Proof.
  exact (queue_empty_between_frames "" script_busy).
Defined.

(** What those two frames execute: the appended command in the frame
    that appended it, and not the command that a pop moved to the
    front. *)
Lemma script_busy_in_figures :
  executed (lifetime "" script_busy)
    = [Append "late"; Rebind; Mark "b"; Mark "late"; PopFirst; Mark "c"]
  /\ fst (run script_busy script_new)
     = Returns true (state_of (fst (run script_busy script_new))).
Proof.
  vm_compute. repeat split.
Qed.



(** The commands of that run do not touch the queue; what they do not
    do is keep to models built while they run. *)
Lemma script_put_back_leaves_queue :
  leaves_queue NewModel /\ leaves_queue FirstModel.
Proof.
  split; intros a; split; reflexivity.
Qed.

(** After a queue whose first command appended another one was worked
    through, a second call executes nothing. *)
Lemma execute_commands_again_witness :
  execute_commands (state_of (fst (execute_commands script_appended))) =
    (Returns tt (state_of (fst (execute_commands script_appended))),
     [(ClearCommands, state_of (fst (execute_commands script_appended)));
      (ClearLoading, state_of (fst (execute_commands script_appended)))])
  /\ executed
       (snd (execute_commands
               (state_of (fst (execute_commands script_appended))))) = [].
Proof.
  assert (H : execute_commands script_appended =
              (Returns tt (state_of (fst (execute_commands script_appended))),
               snd (execute_commands script_appended)))
    by (vm_compute; reflexivity).
  exact (execute_commands_again script_appended _ _ H).
Defined.

End ScriptedRuns.
